(** * Roulette simulator (roulette.py): a shallow embedding and its properties

    The Python classes are modelled by records and the methods by functions
    that pass the mutated objects explicitly.  A Python exception is a value
    of [exn]; a method that can raise returns a [result].  Where a method
    mutates an object before it raises, the mutated object is returned next to
    the exception, as the caller of the Python method would find it. *)

From Stdlib Require Import ZArith QArith.
From stdpp Require Import gmap strings list fin_maps pretty.

Open Scope Z_scope.

(** ** Exceptions and results *)

Inductive exn : Set :=
| InvalidBet      (* exceptions.InvalidBet, raised by Table.place_bet *)
| TypeError       (* Python's TypeError *)
| AttributeError  (* Python's AttributeError *)
| IndexError      (* Python's IndexError *)
| ValueError.     (* Python's ValueError *)

Inductive result (A : Type) : Type :=
| Ok (a : A)
| Raise (e : exn).
Arguments Ok {A} a.
Arguments Raise {A} e.

Instance result_ret : MRet result := fun _ a => Ok a.
Instance result_bind : MBind result := fun _ _ k r =>
  match r with
  | Ok a => k a
  | Raise e => Raise e
  end.

(** [for x in xs: body(x)] over an object threaded through the loop. *)
Fixpoint for_each {S A} (xs : list A) (body : A -> S -> result S) (s : S)
  : result S :=
  match xs with
  | [] => Ok s
  | x :: xs' => s' ← body x s; for_each xs' body s'
  end.

(** [range(a, b)] *)
Definition range (a b : nat) : list nat := seq a (b - a).

(** ** Outcome, PrisonOutcome

    [PrisonOutcome] is a subclass of [Outcome] with the same data; the
    [prison] flag is what [isinstance(o, PrisonOutcome)] answers.  Equality
    and hash of the Python class look at [name] only. *)

Record Outcome : Set := mkOutcome {
  name : string;
  odds : Z;
  prison : bool
}.

Definition plain_outcome (n : string) (o : Z) : Outcome := mkOutcome n o false.
Definition PrisonOutcome (n : string) (o : Z) : Outcome := mkOutcome n o true.

Definition Outcome_eq (a b : Outcome) : bool := bool_decide (name a = name b).

(** ** Bin

    A frozenset of Outcomes.  Since [__eq__] and [__hash__] of Outcome are
    those of the name, the set holds at most one object per name: it is a
    finite map from the name to the object kept. *)

Abbreviation Bin := (gmap string Outcome).

Definition Bin_of (os : list Outcome) : Bin :=
  foldl (fun b o => b ∪ {[ name o := o ]}) ∅ os.

(** [outcome in bin] *)
Definition Bin_contains (o : Outcome) (b : Bin) : bool :=
  bool_decide (is_Some (b !! name o)).

(** [name] is the name of a member of the bin. *)
Definition Bin_has (n : string) (b : Bin) : bool :=
  bool_decide (is_Some (b !! n)).

(** ** The random source

    [random.Random] is Python's library generator, not code of this
    repository.  It is taken as an interface: a state [G], the state
    [rng_seed s] that [rng.seed(s)] installs, and [randint a b], which
    returns an integer of [a..b] and the next state.  The state a fresh
    [random.Random()] starts in comes from the operating system; it is an
    argument of the constructors below. *)

Class RandomSource (G : Type) := {
  rng_seed : Z -> G;
  randint : Z -> Z -> G -> Z * G;
  randint_range : forall a b g, a <= b -> a <= fst (randint a b g) <= b
}.

(** ** Wheel *)

Record Wheel (G : Type) : Type := mkWheel {
  bins : list Bin;
  rng : G;
  all_outcomes : gmap string Outcome
}.
Arguments mkWheel {G} _ _ _.
Arguments bins {G} _.
Arguments rng {G} _.
Arguments all_outcomes {G} _.

Section WheelOps.
Context {G : Type}.

(** [self.bins[bin] = Bin(self.bins[bin] | Bin([outcome]))]; the union of
    two sets keeps the member of the left one when both hold the name. *)
Definition Wheel_add_outcome (bin : nat) (outcome : Outcome) (w : Wheel G)
  : result (Wheel G) :=
  let all' :=
    if Bin_contains outcome (all_outcomes w) then all_outcomes w
    else <[ name outcome := outcome ]> (all_outcomes w) in
  match bins w !! bin with
  | None => Raise IndexError
  | Some b =>
      Ok (mkWheel (<[ bin := b ∪ Bin_of [outcome] ]> (bins w)) (rng w) all')
  end.

Definition Wheel_get_outcome (n : string) (w : Wheel G) : option Outcome :=
  all_outcomes w !! n.

Definition Wheel_get (idx : nat) (w : Wheel G) : result Bin :=
  match bins w !! idx with
  | Some b => Ok b
  | None => Raise IndexError
  end.
End WheelOps.

(** ** BinBuilder *)

Definition fmt (n : nat) : string := pretty n.

(** ["-".join] of the decimal forms, as the format strings of the builder
    produce. *)
Fixpoint dashed (ns : list nat) : string :=
  match ns with
  | [] => ""
  | [n] => fmt n
  | n :: ns' => fmt n +:+ "-" +:+ dashed ns'
  end.

Section Builder.
Context {G : Type}.
Local Abbreviation W := (Wheel G).

Definition add_straight_bets (w : W) : result W :=
  let ODDS := 35 in
  w ← for_each (range 0 37)
         (fun n => Wheel_add_outcome n (plain_outcome (fmt n) ODDS)) w;
  Wheel_add_outcome 37 (plain_outcome "00" ODDS) w.

Definition add_left_right_pair (outcome : Outcome) (idx : nat) (w : W)
  : result W :=
  w ← Wheel_add_outcome idx outcome w;
  Wheel_add_outcome (idx + 1) outcome w.

Definition add_top_down_pair (outcome : Outcome) (idx : nat) (w : W)
  : result W :=
  w ← Wheel_add_outcome idx outcome w;
  Wheel_add_outcome (idx + 3) outcome w.

Definition add_split_bets (w : W) : result W :=
  let ODDS := 17 in
  w ← for_each (range 0 12) (fun r =>
         for_each (range 1 3) (fun i =>
           let n := (3 * r + i)%nat in
           add_left_right_pair
             (plain_outcome (dashed [n; (n + 1)%nat]) ODDS) n)) w;
  for_each (range 1 34) (fun n =>
    add_top_down_pair (plain_outcome (dashed [n; (n + 3)%nat]) ODDS) n) w.

Definition add_street_bets (w : W) : result W :=
  let ODDS := 11 in
  for_each (range 0 12) (fun r =>
    let n := (3 * r + 1)%nat in
    let street_outcome :=
      plain_outcome (dashed [n; (n + 1)%nat; (n + 2)%nat]) ODDS in
    for_each (range 0 3) (fun i =>
      Wheel_add_outcome (n + i) street_outcome)) w.

Definition add_corner_block (idx : nat) (w : W) : result W :=
  let ODDS := 8 in
  let outcome :=
    plain_outcome (dashed (map (fun i => (idx + i)%nat) [0; 1; 3; 4]%nat))
      ODDS in
  for_each [0; 1; 3; 4]%nat
    (fun i => Wheel_add_outcome (idx + i) outcome) w.

Definition add_corner_bets (w : W) : result W :=
  for_each (range 0 11) (fun r w =>
    let left_n := (3 * r + 1)%nat in
    w ← add_corner_block left_n w;
    let right_n := (3 * r + 2)%nat in
    add_corner_block right_n w) w.

Definition add_line_bets (w : W) : result W :=
  let ODDS := 5 in
  for_each (range 0 11) (fun r =>
    let n := (3 * r + 1)%nat in
    let idxs := map (fun i => (n + i)%nat) (range 0 6) in
    let line_outcome := plain_outcome (dashed idxs) ODDS in
    for_each idxs (fun idx => Wheel_add_outcome idx line_outcome)) w.

Definition add_dozen_bets (w : W) : result W :=
  let ODDS := 2 in
  for_each (range 0 3) (fun d =>
    let dozen_outcome :=
      plain_outcome ("dozen(" +:+ fmt (d + 1) +:+ ")") ODDS in
    for_each (range 0 12) (fun m =>
      let idx := (12 * d + m + 1)%nat in
      Wheel_add_outcome idx dozen_outcome)) w.

Definition add_column_bets (w : W) : result W :=
  let ODDS := 2 in
  for_each (range 0 3) (fun c =>
    let col_outcome :=
      plain_outcome ("column(" +:+ fmt (c + 1) +:+ ")") ODDS in
    for_each (range 0 12) (fun r =>
      let idx := (3 * r + c + 1)%nat in
      Wheel_add_outcome idx col_outcome)) w.

Definition red_bins : list nat :=
  [1; 3; 5; 7; 9; 12; 14; 16; 18; 19; 21; 23; 25; 27; 30; 32; 34; 36]%nat.

Definition add_even_money_bets (w : W) : result W :=
  let ODDS := 1 in
  let red := plain_outcome "red" ODDS in
  let black := plain_outcome "black" ODDS in
  let even := plain_outcome "even" ODDS in
  let odd := plain_outcome "odd" ODDS in
  let high := plain_outcome "high" ODDS in
  let low := plain_outcome "low" ODDS in
  for_each (range 1 37) (fun n w =>
    w ← (if (1 <=? n)%nat && (n <? 19)%nat
          then Wheel_add_outcome n low w
          else Wheel_add_outcome n high w);
    w ← (if (n mod 2 =? 0)%nat
          then Wheel_add_outcome n even w
          else Wheel_add_outcome n odd w);
    if bool_decide (n ∈ red_bins)
    then Wheel_add_outcome n red w
    else Wheel_add_outcome n black w) w.

Definition add_five_bets (w : W) : result W :=
  let five_bet := plain_outcome "00-0-1-2-3" 6 in
  w ← for_each (range 0 4) (fun i => Wheel_add_outcome i five_bet) w;
  Wheel_add_outcome 37 five_bet w.

(** [BinBuilder.build_bins]; the two methods that EuroBinBuilder
    overrides are arguments, as [self.add_straight_bets] and
    [self.add_five_bets] are looked up on the object. *)
Definition build_bins_with (straight five : W -> result W) (w : W)
  : result W :=
  w ← straight w;
  w ← add_split_bets w;
  w ← add_street_bets w;
  w ← add_corner_bets w;
  w ← add_line_bets w;
  w ← add_dozen_bets w;
  w ← add_column_bets w;
  w ← add_even_money_bets w;
  five w.

Definition BinBuilder_build_bins : W -> result W :=
  build_bins_with add_straight_bets add_five_bets.

(** *** EuroBinBuilder *)

Definition Euro_add_straight_bets (w : W) : result W :=
  let ODDS := 35 in
  w ← for_each (range 1 37)
         (fun n => Wheel_add_outcome n (plain_outcome (fmt n) ODDS)) w;
  w ← Wheel_add_outcome 37 (plain_outcome "00" ODDS) w;
  Wheel_add_outcome 0 (PrisonOutcome "0" ODDS) w.

Definition Euro_add_five_bets (w : W) : result W := Ok w.

Definition Euro_add_four_bets (w : W) : result W :=
  let four_bet := plain_outcome "0-1-2-3" 6 in
  for_each (range 0 4) (fun i => Wheel_add_outcome i four_bet) w.

Definition EuroBinBuilder_build_bins (w : W) : result W :=
  w ← build_bins_with Euro_add_straight_bets Euro_add_five_bets w;
  Euro_add_four_bets w.
End Builder.

(** *** Wheel.__init__

    [fresh] is the state of the new [random.Random()]; [seed] is the
    argument, [None] when it is left out.  [if seed:] is false for [None]
    and for the integer 0. *)

Definition Wheel_init `{RandomSource G} (fresh : G) (seed : option Z)
    (rules : string) : result (Wheel G) :=
  let bins0 := replicate 38 (Bin_of []) in
  let rng0 :=
    match seed with
    | Some z => if bool_decide (z ≠ 0) then rng_seed z else fresh
    | None => fresh
    end in
  let w := mkWheel bins0 rng0 ∅ in
  if bool_decide (rules = "american") then BinBuilder_build_bins w
  else if bool_decide (rules = "european") then EuroBinBuilder_build_bins w
  else Ok w.

(** [self.bins[self.rng.randint(0,37)]] *)
Definition Wheel_next `{RandomSource G} (w : Wheel G) : result Bin * Wheel G :=
  let '(i, g) := randint 0 37 (rng w) in
  let w' := mkWheel (bins w) g (all_outcomes w) in
  (match bins w !! Z.to_nat i with
   | Some b => Ok b
   | None => Raise IndexError
   end, w').

(** A stand-in source to run the model on concrete inputs: the state is the
    list of the draws to come, each brought into the requested interval; a
    seed installs a script that starts with the seed. *)
Definition scripted_randint (a b : Z) (g : list Z) : Z * list Z :=
  match g with
  | [] => (a, [])
  | x :: g' => (Z.max a (Z.min b x), g')
  end.

#[refine] Instance scripted_source : RandomSource (list Z) := {|
  rng_seed := fun s => [s; s + 1; s + 2];
  randint := scripted_randint
|}.
Proof.
  intros a b [|x g] Hab; simpl; lia.
Defined.

(** ** Bet

    [outcome] is [None] when the player's lookup of the Outcome in the wheel
    found nothing ([Wheel.get_outcome] returns [None]). *)

Record Bet : Set := mkBet {
  amount : Z;
  outcome : option Outcome
}.

(** The numbers the program computes with: Python ints, and the floats that
    a product with [0.5] gives, kept as rationals. *)
Inductive value : Set :=
| VInt (z : Z)
| VFloat (q : Q).

(** What an attribute access yields: a number, or a bound method when the
    attribute is a method that is not called. *)
Inductive attr : Set :=
| Number (v : value)
| BoundMethod (self : Bet) (method : string).

Definition to_Q (v : value) : Q :=
  match v with
  | VInt z => inject_Z z
  | VFloat q => q
  end.

(** [x * f] for a float [f]: Python defines no product of a method object
    and a float. *)
Definition mul_float (x : attr) (f : Q) : result value :=
  match x with
  | Number v => Ok (VFloat (to_Q v * f)%Q)
  | BoundMethod _ _ => Raise TypeError
  end.

Definition py_add (a b : value) : value :=
  match a, b with
  | VInt x, VInt y => VInt (x + y)
  | _, _ => VFloat (to_Q a + to_Q b)%Q
  end.

(** [sum(vs)] *)
Definition py_sum (vs : list value) : value := foldl py_add (VInt 0) vs.

(** [self.amount*self.outcome.odds]; [None] has no attribute [odds]. *)
Definition Bet_win_amount (b : Bet) : result Z :=
  match outcome b with
  | Some o => Ok (amount b * odds o)
  | None => Raise AttributeError
  end.

Definition Bet_lose_amount (b : Bet) : result Z := Bet_win_amount b.

(** [isinstance(bet.outcome, PrisonOutcome)] *)
Definition is_prison (b : Bet) : bool :=
  match outcome b with
  | Some o => prison o
  | None => false
  end.

(** [b.outcome in winning_outcomes].  For [None] the answer is taken to be
    [False]: no member of a bin has the hash of [None]. *)
Definition wins (b : Bet) (winning : Bin) : bool :=
  match outcome b with
  | Some o => Bin_contains o winning
  | None => false
  end.

(** ** Table *)

Record Table (G : Type) : Type := mkTable {
  limit : Z;
  bets : list Bet;
  wheel : Wheel G
}.
Arguments mkTable {G} _ _ _.
Arguments limit {G} _.
Arguments bets {G} _.
Arguments wheel {G} _.

(** Methods that mutate objects: the objects go in, the result and the
    objects as the method left them come out, also when it raises. *)
Definition Eff (S A : Type) : Type := S -> result A * S.

Instance eff_ret {S} : MRet (Eff S) := fun _ a s => (Ok a, s).
Instance eff_bind {S} : MBind (Eff S) := fun _ _ k m s =>
  match m s with
  | (Ok a, s') => k a s'
  | (Raise e, s') => (Raise e, s')
  end.

Definition raise {S A} (e : exn) : Eff S A := fun s => (Raise e, s).
Definition get {S} : Eff S S := fun s => (Ok s, s).
Definition modify {S} (f : S -> S) : Eff S unit := fun s => (Ok tt, f s).
Definition lift_result {S A} (r : result A) : Eff S A := fun s => (r, s).

Section TableOps.
Context {G : Type}.

Definition total_wagered (bs : list Bet) : Z :=
  foldr (fun x acc => amount x + acc) 0 bs.

Definition Table_init (lim : Z) (w : Wheel G) : Table G := mkTable lim [] w.

Definition Table_is_valid (t : Table G) : bool :=
  if bool_decide (total_wagered (bets t) > limit t) then false else true.

Definition Table_append (b : Bet) (t : Table G) : Table G :=
  mkTable (limit t) (bets t ++ [b]) (wheel t).

Definition Table_place_bet (b : Bet) : Eff (Table G) unit :=
  _ ← modify (Table_append b);
  t ← get;
  if negb (Table_is_valid t) then raise InvalidBet else mret tt.

Definition Table_clear_bets (t : Table G) : Table G :=
  mkTable (limit t) [] (wheel t).
End TableOps.

(** Run a method of one of two objects held together. *)
Definition on_fst {A B R} (m : Eff A R) : Eff (A * B) R := fun s =>
  let '(r, a) := m (fst s) in (r, (a, snd s)).
Definition on_snd {A B R} (m : Eff B R) : Eff (A * B) R := fun s =>
  let '(r, b) := m (snd s) in (r, (fst s, b)).

(** ** Player: the base class *)

Record Player : Set := mkPlayer {
  stake : option Z;
  rounds : option Z
}.

(** [Player.__init__]; the [table] attribute is the table the game holds and
    is kept there. *)
Definition Player_init : Player := mkPlayer None None.

Definition Player_playing (p : Player) : bool :=
  match rounds p, stake p with
  | Some r, Some s => if bool_decide (r > 0) && bool_decide (s > 0) then true else false
  | _, _ => false
  end.

Definition Player_win (b : Bet) : result value :=
  z ← Bet_win_amount b; Ok (VInt z).

(** [bet.lose_amount] is not called: the operand of the product is the
    method. *)
Definition Player_lose (b : Bet) : result value :=
  if is_prison b then mul_float (BoundMethod b "lose_amount") (1 # 2)
  else Ok (VInt 0).

Definition Player_set_stake (s : Z) (p : Player) : Player :=
  mkPlayer (Some s) (rounds p).

Definition Player_set_rounds (r : Z) (p : Player) : Player :=
  mkPlayer (stake p) (Some r).

(** [if self.rounds: self.rounds -= 1] *)
Definition Player_winners (p : Player) : Player :=
  match rounds p with
  | Some r => if bool_decide (r ≠ 0) then mkPlayer (stake p) (Some (r - 1)) else p
  | None => p
  end.

(** ** The strategy interface

    A subclass of [Player]: it holds the attributes of the base class
    ([base], [set_base]) and provides the methods that [Game.cycle] and
    [Simulator.session] call on the player. *)

Class Strategy (G P : Type) := {
  base : P -> Player;
  set_base : Player -> P -> P;
  construct : Table G -> P;
  playing : P -> bool;
  place_bets : Eff (P * Table G) unit;
  win : Bet -> Eff P value;
  lose : Bet -> Eff P value;
  winners : Bin -> P -> P
}.

Definition set_stake `{Strategy G P} (s : Z) (p : P) : P :=
  set_base (Player_set_stake s (base p)) p.
Definition set_rounds `{Strategy G P} (r : Z) (p : P) : P :=
  set_base (Player_set_rounds r (base p)) p.

(** ** Passenger57 *)

Record Passenger57 : Set := mkPassenger57 {
  p57_player : Player;
  p57_black : option Outcome
}.

Section Passenger57.
Context {G : Type}.

Definition Passenger57_init (t : Table G) : Passenger57 :=
  mkPassenger57 Player_init (Wheel_get_outcome "black" (wheel t)).

Definition Passenger57_place_bets : Eff (Passenger57 * Table G) unit :=
  '(p, _) ← get;
  on_snd (Table_place_bet (mkBet 10 (p57_black p))).

Definition Passenger57_playing (p : Passenger57) : bool := true.

#[export] Instance Passenger57_strategy : Strategy G Passenger57 := {|
  base := p57_player;
  set_base := fun b p => mkPassenger57 b (p57_black p);
  construct := Passenger57_init;
  playing := Passenger57_playing;
  place_bets := Passenger57_place_bets;
  win := fun b => lift_result (Player_win b);
  lose := fun b => lift_result (Player_lose b);
  winners := fun _ p => mkPassenger57 (Player_winners (p57_player p)) (p57_black p)
|}.
End Passenger57.

(** ** Martingale

    [multiplier] counts the losses since the last win: it starts at 0 and is
    only incremented or reset. *)

Record Martingale : Set := mkMartingale {
  m_player : Player;
  multiplier : nat;
  black : option Outcome
}.

Section Martingale.
Context {G : Type}.

Definition Martingale_init (t : Table G) : Martingale :=
  mkMartingale Player_init 0 (Wheel_get_outcome "black" (wheel t)).

(** The amount [place_bets] computes from the multiplier, the limit and the
    stake. *)
Definition Martingale_amount (mult : nat) (lim s : Z) : Z :=
  let amount := 2 ^ Z.of_nat mult in
  let amount := if bool_decide (amount > lim) then lim else amount in
  if bool_decide (amount > s) then s else amount.

(** [amount > self.stake] raises TypeError while the stake is [None]. *)
Definition Martingale_place_bets : Eff (Martingale * Table G) unit :=
  '(m, t) ← get;
  match stake (m_player m) with
  | None => raise TypeError
  | Some s =>
      let amount := Martingale_amount (multiplier m) (limit t) s in
      _ ← modify (fun '(m, t) =>
             (mkMartingale (mkPlayer (Some (s - amount)) (rounds (m_player m)))
                (multiplier m) (black m), t));
      on_snd (Table_place_bet (mkBet amount (black m)))
  end.

Definition Martingale_win (b : Bet) : Eff Martingale value :=
  _ ← modify (fun m => mkMartingale (m_player m) 0 (black m));
  m ← get;
  match stake (m_player m) with
  | None => raise TypeError
  | Some s =>
      _ ← modify (fun m =>
             mkMartingale (mkPlayer (Some (s + amount b)) (rounds (m_player m)))
               (multiplier m) (black m));
      lift_result (Player_win b)
  end.

Definition Martingale_lose (b : Bet) : Eff Martingale value :=
  _ ← modify (fun m => mkMartingale (m_player m) (multiplier m + 1) (black m));
  lift_result (Player_lose b).

Definition Martingale_winners (m : Martingale) : Martingale :=
  mkMartingale (Player_winners (m_player m)) (multiplier m) (black m).

#[export] Instance Martingale_strategy : Strategy G Martingale := {|
  base := m_player;
  set_base := fun b m => mkMartingale b (multiplier m) (black m);
  construct := Martingale_init;
  playing := fun m => Player_playing (m_player m);
  place_bets := Martingale_place_bets;
  win := Martingale_win;
  lose := Martingale_lose;
  winners := fun _ => Martingale_winners
|}.
End Martingale.

(** ** SevenReds, a subclass of Martingale *)

Record SevenReds : Set := mkSevenReds {
  sr_martingale : Martingale;
  red_count : nat;
  red : option Outcome
}.

Section SevenReds.
Context {G : Type}.

(** [Martingale.__init__], then the red counter and the two lookups; the
    second lookup of "black" overwrites the attribute with the same
    object. *)
Definition SevenReds_init (t : Table G) : SevenReds :=
  let m := Martingale_init t in
  let r := Wheel_get_outcome "red" (wheel t) in
  let bl := Wheel_get_outcome "black" (wheel t) in
  mkSevenReds (mkMartingale (m_player m) (multiplier m) bl) 0 r.

Definition with_martingale {R} (m : Eff (Martingale * Table G) R)
  : Eff (SevenReds * Table G) R := fun '(p, t) =>
  let '(r, (m', t')) := m (sr_martingale p, t) in
  (r, (mkSevenReds m' (red_count p) (red p), t')).

Definition SevenReds_place_bets : Eff (SevenReds * Table G) unit :=
  '(p, _) ← get;
  let mult := Z.of_nat (red_count p) - 7 in
  if bool_decide (mult >= 0) then with_martingale Martingale_place_bets
  else mret tt.

(** [self.red in winners] with [self.red] an Outcome or [None]. *)
Definition SevenReds_winners (winning : Bin) (p : SevenReds) : SevenReds :=
  let m := Martingale_winners (sr_martingale p) in
  if wins (mkBet 0 (red p)) winning
  then mkSevenReds m (red_count p + 1) (red p)
  else mkSevenReds m 0 (red p).

Definition SevenReds_lift {R} (m : Eff Martingale R) : Eff SevenReds R :=
  fun p => let '(r, m') := m (sr_martingale p) in
           (r, mkSevenReds m' (red_count p) (red p)).

#[export] Instance SevenReds_strategy : Strategy G SevenReds := {|
  base := fun p => m_player (sr_martingale p);
  set_base := fun b p =>
    mkSevenReds (mkMartingale b (multiplier (sr_martingale p))
                   (black (sr_martingale p))) (red_count p) (red p);
  construct := SevenReds_init;
  playing := fun p => Player_playing (m_player (sr_martingale p));
  place_bets := SevenReds_place_bets;
  win := fun b => SevenReds_lift (Martingale_win b);
  lose := fun b => SevenReds_lift (Martingale_lose b);
  winners := SevenReds_winners
|}.
End SevenReds.

(** ** Game *)

Record Game (G : Type) : Type := mkGame { table : Table G }.
Arguments mkGame {G} _.
Arguments table {G} _.

Section Game.
Context `{RandomSource G} `{Strategy G P}.

(** [self.table.wheel.next()] *)
Definition spin : Eff (Table G) Bin := fun t =>
  let '(r, w) := Wheel_next (wheel t) in
  (r, mkTable (limit t) (bets t) w).

(** The loop over the bets on the table: the values that [win] and [lose]
    return, in the order of the bets. *)
Fixpoint resolve (winning : Bin) (bs : list Bet) : Eff P (list value) :=
  match bs with
  | [] => mret []
  | b :: bs' =>
      v ← (if wins b winning then win b else lose b);
      vs ← resolve winning bs';
      mret (v :: vs)
  end.

Definition Game_cycle : Eff (P * Table G) (value * nat) :=
  '(p, _) ← get;
  _ ← (if playing p then place_bets else mret tt);
  winning_outcomes ← on_snd spin;
  _ ← modify (fun '(p, t) => (winners winning_outcomes p, t));
  '(_, t) ← get;
  outcomes ← on_fst (resolve winning_outcomes (bets t));
  _ ← modify (fun '(p, t) => (p, Table_clear_bets t));
  mret (py_sum outcomes, length outcomes).
End Game.

(** ** Simulator *)

Record Simulator (G P : Type) : Type := mkSimulator {
  init_duration : Z;
  init_stake : Z;
  samples : nat;
  durations : list Z;
  maxima : list (option Z);
  player : P;
  game : Game G
}.
Arguments mkSimulator {G P} _ _ _ _ _ _ _.
Arguments init_duration {G P} _.
Arguments init_stake {G P} _.
Arguments samples {G P} _.
Arguments durations {G P} _.
Arguments maxima {G P} _.
Arguments player {G P} _.
Arguments game {G P} _.

(** [a > b] on stakes: an int and [None] do not compare. *)
Definition py_gt (a b : option Z) : result bool :=
  match a, b with
  | Some x, Some y => Ok (bool_decide (x > y))
  | _, _ => Raise TypeError
  end.

(** [max(xs)]: the first of the largest items; [ValueError] on an empty
    list. *)
Definition py_max (xs : list (option Z)) : result (option Z) :=
  match xs with
  | [] => Raise ValueError
  | x :: xs' =>
      for_each xs' (fun item cur =>
        g ← py_gt item cur; Ok (if g : bool then item else cur)) x
  end.

Section Simulator.
Context `{RandomSource G} `{Strategy G P}.

Definition Simulator_init (g : Game G) (p : P) : Simulator G P :=
  mkSimulator 250 100 50 [] [] p g.

(** The [while] loop of [session].  [None]: the loop has not ended after
    [fuel] rounds.  Otherwise the exception a round raised, or the stakes
    and the duration when [playing()] became false, with the player and
    the table as they then are. *)
Fixpoint session_loop (fuel : nat) (stakes : list (option Z)) (duration : Z)
    (s : P * Table G)
  : option (result (list (option Z) * Z) * (P * Table G)) :=
  if playing (fst s) then
    match fuel with
    | O => None
    | S fuel' =>
        match Game_cycle s with
        | (Raise e, s') => Some (Raise e, s')
        | (Ok _, s') =>
            session_loop fuel' (stakes ++ [stake (base (fst s'))])
              (duration + 1) s'
        end
    end
  else Some (Ok (stakes, duration), s).

Definition Simulator_session (fuel : nat) (sim : Simulator G P)
  : option (result (list (option Z)) * Simulator G P) :=
  let t := table (game sim) in
  let p := construct t in
  let p := set_rounds (init_duration sim) p in
  let p := set_stake (init_stake sim) p in
  let stakes := [stake (base p)] in
  match session_loop fuel stakes 0 (p, t) with
  | None => None
  | Some (Raise e, (p', t')) =>
      Some (Raise e,
            mkSimulator (init_duration sim) (init_stake sim) (samples sim)
              (durations sim) (maxima sim) p' (mkGame t'))
  | Some (Ok (stakes, duration), (p', t')) =>
      let ds := durations sim ++ [duration] in
      match py_max stakes with
      | Raise e =>
          Some (Raise e,
                mkSimulator (init_duration sim) (init_stake sim)
                  (samples sim) ds (maxima sim) p' (mkGame t'))
      | Ok m =>
          Some (Ok stakes,
                mkSimulator (init_duration sim) (init_stake sim)
                  (samples sim) ds (maxima sim ++ [m]) p' (mkGame t'))
      end
  end.

(** [for _ in range(n): self.session()] *)
Fixpoint gather_loop (fuel n : nat) (sim : Simulator G P)
  : option (result unit * Simulator G P) :=
  match n with
  | O => Some (Ok tt, sim)
  | S n' =>
      match Simulator_session fuel sim with
      | None => None
      | Some (Raise e, sim') => Some (Raise e, sim')
      | Some (Ok _, sim') => gather_loop fuel n' sim'
      end
  end.

Definition Simulator_gather (fuel : nat) (sim : Simulator G P)
  : option (result unit * Simulator G P) :=
  gather_loop fuel (samples sim) sim.
End Simulator.

(** * Definitions for the statements *)

(** ** The built wheels *)

(** The wheel of [Wheel.__init__] before a builder runs. *)
Definition empty_wheel {G} (g : G) : Wheel G :=
  mkWheel (replicate 38 (Bin_of [])) g ∅.

(** The bins and the outcomes of a wheel that was built. *)
Definition built {G} (r : result (Wheel G)) : list Bin * gmap string Outcome :=
  match r with
  | Ok w => (bins w, all_outcomes w)
  | Raise _ => ([], ∅)
  end.

(** What BinBuilder and EuroBinBuilder make of the empty wheel. *)
Definition american_bins : list Bin :=
  fst (built (BinBuilder_build_bins (empty_wheel tt))).

Definition american_outcomes : gmap string Outcome :=
  snd (built (BinBuilder_build_bins (empty_wheel tt))).

Definition european_bins : list Bin :=
  fst (built (EuroBinBuilder_build_bins (empty_wheel tt))).

Definition european_outcomes : gmap string Outcome :=
  snd (built (EuroBinBuilder_build_bins (empty_wheel tt))).

(** The wheel with another generator. *)
Definition retag {G G'} (g : G') (w : Wheel G) : Wheel G' :=
  mkWheel (bins w) g (all_outcomes w).

Definition rmap {A B} (f : A -> B) (r : result A) : result B :=
  match r with
  | Ok a => Ok (f a)
  | Raise e => Raise e
  end.

Definition is_ok {A} (r : result A) : bool :=
  match r with
  | Ok _ => true
  | Raise _ => false
  end.

(** [f'] on the retagged wheel does what [f] does on the wheel. *)
Definition same_build {G} (g : G) (f' : Wheel G -> result (Wheel G))
    (f : Wheel unit -> result (Wheel unit)) : Prop :=
  forall w, f' (retag g w) = rmap (retag g) (f w).

(** The generator state a new wheel starts with. *)
Definition initial_rng `{RandomSource G} (fresh : G) (seed : option Z) : G :=
  match seed with
  | Some z => if bool_decide (z ≠ 0) then rng_seed z else fresh
  | None => fresh
  end.

(** The bins and the outcomes that a selector gives. *)
Definition bins_for (rules : string) : list Bin :=
  if bool_decide (rules = "american") then american_bins
  else if bool_decide (rules = "european") then european_bins
  else replicate 38 ∅.

Definition outcomes_for (rules : string) : gmap string Outcome :=
  if bool_decide (rules = "american") then american_outcomes
  else if bool_decide (rules = "european") then european_outcomes
  else ∅.

(** [n] calls of [next], in order. *)
Fixpoint Wheel_spins `{RandomSource G} (n : nat) (w : Wheel G)
  : list (result Bin) :=
  match n with
  | O => []
  | S n' => let '(r, w') := Wheel_next w in r :: Wheel_spins n' w'
  end.

(** ** Checks on bins *)

Definition even_money : list string :=
  ["red"; "black"; "even"; "odd"; "high"; "low"].

(** Exactly one of the two names is in the bin. *)
Definition one_of (a b : string) (bn : Bin) : bool :=
  xorb (Bin_has a bn) (Bin_has b bn).

Definition even_money_ok (i : nat) (bn : Bin) : bool :=
  if (1 <=? i)%nat && (i <=? 36)%nat
  then one_of "high" "low" bn && one_of "even" "odd" bn
       && one_of "red" "black" bn
  else forallb (fun n => negb (Bin_has n bn)) even_money.

(** [check] holds of each of the 38 bins. *)
Definition checked_bins (check : nat -> Bin -> bool) (bs : list Bin) : bool :=
  forallb (fun i => match bs !! i with
                    | Some b => check i b
                    | None => false
                    end) (seq 0 38).

(** The default wheel on the scripted source, with no draw scripted. *)
Definition sample_wheel : Wheel (list Z) :=
  mkWheel american_bins [] american_outcomes.

(** Every bin holds its straight bet, at odds 35: the numbers 0..36 under
    their decimal name and bin 37 under "00". *)
Definition straight_name (i : nat) : string :=
  if (i =? 37)%nat then "00" else fmt i.

Definition holds_straight (zero_is_prison : bool) (i : nat) (bn : Bin) : bool :=
  match bn !! straight_name i with
  | Some o =>
      bool_decide (odds o = 35)
      && bool_decide (prison o = (zero_is_prison && (i =? 0)%nat))
  | None => false
  end.

Definition populated (zero_is_prison : bool) (five four : bool)
    (bs : list Bin) (all : gmap string Outcome) : Prop :=
  length bs = 38%nat /\
  checked_bins (holds_straight zero_is_prison) bs = true /\
  size all = 153%nat /\
  forallb (fun n => bool_decide (is_Some (all !! n))) even_money = true /\
  (is_Some (all !! "00-0-1-2-3") <-> five = true) /\
  (is_Some (all !! "0-1-2-3") <-> four = true).

(** ** Sample tables and players *)

Definition black_outcome : Outcome := plain_outcome "black" 1.

(** A table with limit 100 that holds a bet of 90. *)
Definition table_at_90 : Table (list Z) :=
  mkTable 100 [mkBet 90 (Some black_outcome)] sample_wheel.

(** A Martingale player after three losses in a row. *)
Definition martingale_sample : Martingale :=
  mkMartingale (mkPlayer (Some 93) (Some 247)) 3 (Some black_outcome).

(** The table with the wheel as a spin left it. *)
Definition with_wheel {G} (t : Table G) (w : Wheel G) : Table G :=
  mkTable (limit t) (bets t) w.

Section Rounds.
Context `{RandomSource G} `{Strategy G P}.

(** [n] rounds of the game, stopping at the first exception. *)
Fixpoint play_rounds (n : nat) (s : P * Table G) : result (P * Table G) :=
  match n with
  | O => Ok s
  | S n' =>
      match Game_cycle s with
      | (Ok _, s') => play_rounds n' s'
      | (Raise e, _) => Raise e
      end
  end.

(** An invariant of the rounds under which no round raises. *)
Definition safe_rounds (I : P * Table G -> Prop) : Prop :=
  forall s, I s -> exists v s', Game_cycle s = (Ok v, s') /\ I s'.
End Rounds.

(** The player of the worked example: stake 1000 on a table with limit 500,
    and a wheel that stops three times on bin 1, which is red. *)
Definition three_reds_table : Table (list Z) :=
  Table_init 500 (mkWheel american_bins [1; 1; 1] american_outcomes).

Definition fresh_martingale : Martingale :=
  set_stake (G:=list Z) 1000
    (set_rounds (G:=list Z) 250 (Martingale_init three_reds_table)).

(** The player after three rounds, and the bets on the table after the
    fourth call of [place_bets]. *)
Definition fourth_bet : option (Martingale * list Bet) :=
  match play_rounds 3 (fresh_martingale, three_reds_table) with
  | Ok (m, t) => Some (m, bets (snd (snd (Martingale_place_bets (m, t)))))
  | Raise _ => None
  end.

(** ** Classes of strategies and invariants of the rounds *)

(** What the argument needs of a strategy: on a table without bets
    [place_bets] does not raise InvalidBet, and [win] and [lose] never do. *)
Class Clamped `(St : Strategy G P) : Prop := {
  place_bets_clamped : forall p t e s',
    bets t = [] -> place_bets (p, t) = (Raise e, s') -> e ≠ InvalidBet;
  win_not_InvalidBet : forall b p e p',
    win b p = (Raise e, p') -> e ≠ InvalidBet;
  lose_not_InvalidBet : forall b p e p',
    lose b p = (Raise e, p') -> e ≠ InvalidBet
}.

(** The simulator of a Martingale player on the table of the worked
    example. *)
Definition martingale_sim : Simulator (list Z) Martingale :=
  Simulator_init (mkGame three_reds_table) (Martingale_init three_reds_table).

(** The loop came to an end within the fuel. *)
Definition ended {A} (o : option A) : bool :=
  match o with
  | Some _ => true
  | None => false
  end.

(** A strategy that keeps the round budget of the base class: [playing] is
    [Player.playing], [winners] counts the round as [Player.winners] does,
    and no other method touches [rounds]. *)
Class Budgeted `(St : Strategy G P) : Prop := {
  base_set_base : forall b p, base (set_base b p) = b;
  playing_base : forall p, playing p = Player_playing (base p);
  winners_rounds : forall w p,
    rounds (base (winners w p)) = rounds (Player_winners (base p));
  place_bets_rounds : forall s,
    rounds (base (fst (snd (place_bets s)))) = rounds (base (fst s));
  win_rounds : forall b p, rounds (base (snd (win b p))) = rounds (base p);
  lose_rounds : forall b p, rounds (base (snd (lose b p))) = rounds (base p)
}.

(** The Outcome a player bets on is not a PrisonOutcome (or the lookup found
    none). *)
Definition plain (o : option Outcome) : Prop :=
  match o with
  | Some x => prison x = false
  | None => True
  end.

(** The table between two rounds: no bets, a wheel of 38 bins, and a plain
    "black" for the players to find. *)
Definition table_ready {G} (t : Table G) : Prop :=
  bets t = [] /\ length (bins (wheel t)) = 38%nat /\
  plain (Wheel_get_outcome "black" (wheel t)).

(** What holds of a Martingale player and of a Passenger57 player between
    two rounds of a session on such a table. *)
Definition Martingale_ready {G} (s : Martingale * Table G) : Prop :=
  table_ready (snd s) /\ plain (black (fst s)) /\
  is_Some (stake (m_player (fst s))).

Definition Passenger57_ready {G} (s : Passenger57 * Table G) : Prop :=
  table_ready (snd s) /\ plain (p57_black (fst s)) /\ 10 <= limit (snd s).

(** The configuration of the simulator is unchanged. *)
Definition same_setup {G} (a b : Simulator G Martingale) : Prop :=
  init_duration b = init_duration a /\ init_stake b = init_stake a.

(** The simulator of the script: a table with limit 1000 on the default
    wheel, played by Passenger57. *)
Definition passenger57_sim : Simulator (list Z) Passenger57 :=
  Simulator_init (mkGame (Table_init 1000 sample_wheel))
    (Passenger57_init (Table_init 1000 sample_wheel)).

(** The strategy [St] with other values returned by [win] and [lose]. *)
Definition with_payouts `(St : Strategy G P) (f : value -> value)
  : Strategy G P := {|
  base := base;
  set_base := set_base;
  construct := construct;
  playing := playing;
  place_bets := place_bets;
  win := fun b p => (rmap f (fst (win b p)), snd (win b p));
  lose := fun b p => (rmap f (fst (lose b p)), snd (lose b p));
  winners := winners
|}.

(** A strategy none of whose methods changes the stake. *)
Class StakeNeutral `(St : Strategy G P) : Prop := {
  place_bets_stake : forall s,
    stake (base (fst (snd (place_bets s)))) = stake (base (fst s));
  win_stake : forall b p, stake (base (snd (win b p))) = stake (base p);
  lose_stake : forall b p, stake (base (snd (lose b p))) = stake (base p);
  winners_stake : forall w p, stake (base (winners w p)) = stake (base p)
}.

(** * Definitions for further properties *)

(** ** Outcome.__ne__ *)

(** [True] and [False] as the integers they are. *)
Definition py_int_of_bool (b : bool) : Z := if b then 1 else 0.

(** [~(self.name == other.name)]: the bitwise complement of the result of
    the comparison. *)
Definition Outcome_ne (a b : Outcome) : Z :=
  Z.lnot (py_int_of_bool (Outcome_eq a b)).

(** The truth value of an integer, as [if x:] takes it. *)
Definition py_truth (z : Z) : bool := negb (z =? 0).

(** ** Wheel.add_bin and Wheel.get *)

(** [xs[i]] on a list of length [len]: the position that the index [i]
    names, counting from the end when [i] is negative; [None] is
    IndexError. *)
Definition py_index (len : nat) (i : Z) : option nat :=
  if bool_decide (0 <= i < Z.of_nat len) then Some (Z.to_nat i)
  else if bool_decide (- Z.of_nat len <= i < 0)
       then Some (Z.to_nat (Z.of_nat len + i))
       else None.

(** [self.bins[idx] = bin] *)
Definition Wheel_add_bin {G} (idx : Z) (b : Bin) (w : Wheel G)
  : result (Wheel G) :=
  match py_index (length (bins w)) idx with
  | Some k => Ok (mkWheel (<[ k := b ]> (bins w)) (rng w) (all_outcomes w))
  | None => Raise IndexError
  end.

(** [return self.bins[idx]] *)
Definition Wheel_get_at {G} (idx : Z) (w : Wheel G) : result Bin :=
  match py_index (length (bins w)) idx with
  | Some k =>
      match bins w !! k with
      | Some b => Ok b
      | None => Raise IndexError
      end
  | None => Raise IndexError
  end.

(** The European wheel on the scripted source, with no draw scripted. *)
Definition sample_european : Wheel (list Z) :=
  mkWheel european_bins [] european_outcomes.

(** A second Outcome under the name "black". *)
Definition renamed_black : Outcome := PrisonOutcome "black" 7.

(** A name is registered in the wheel exactly when some bin holds it. *)
Definition registry_matches_bins {G} (w : Wheel G) : Prop :=
  forall n, is_Some (all_outcomes w !! n) <->
            exists i b, bins w !! i = Some b /\ is_Some (b !! n).

(** Outcomes as data: the same name, odds and class. *)
Instance Outcome_same_dec : EqDecision Outcome.
Proof. solve_decision. Defined.

(** Every member of a bin is the object registered under its name. *)
Definition members_registered (all : gmap string Outcome) (b : Bin) : bool :=
  forallb (fun '(n, o) => bool_decide (all !! n = Some o)) (map_to_list b).

(** Every registered name is held by one of the bins. *)
Definition registered_held (bs : list Bin) (all : gmap string Outcome) : bool :=
  forallb (fun '(n, _) => existsb (Bin_has n) bs) (map_to_list all).

(** ** More sample players *)

(** A Martingale player that has lost its stake, with rounds left. *)
Definition broke_martingale : Martingale :=
  mkMartingale (mkPlayer (Some 0) (Some 200)) 7 (Some black_outcome).

(** ** The layout that the builders fill in *)

(** The rules that name a builder. *)
Definition standard (rules : string) : Prop :=
  rules = "american" \/ rules = "european".

(** [f] holds of every number below [k]. *)
Definition all_below (k : nat) (f : nat -> bool) : bool := forallb f (seq 0 k).

(** The number of registered Outcomes that pay [k] to 1. *)
Definition count_at_odds (k : Z) (all : gmap string Outcome) : nat :=
  length (List.filter (fun p => bool_decide (odds (snd p) = k))
            (map_to_list all)).

(** [a] and [b] are neighbours on the layout of three columns and twelve
    rows: [b] is right of [a] in the same row, or below [a] in the same
    column. *)
Definition split_pair (a b : nat) : bool :=
  ((b =? a + 1)%nat && negb (a mod 3 =? 0)%nat && (1 <=? a)%nat
   && (a <=? 35)%nat)
  || ((b =? a + 3)%nat && (1 <=? a)%nat && (a <=? 33)%nat).

(** The numbers that start a row, a two-by-two block, and a pair of rows. *)
Definition street_start (n : nat) : bool :=
  (n mod 3 =? 1)%nat && (n <=? 34)%nat.
Definition corner_start (n : nat) : bool :=
  negb (n mod 3 =? 0)%nat && (1 <=? n)%nat && (n <=? 32)%nat.
Definition line_start (n : nat) : bool :=
  (n mod 3 =? 1)%nat && (n <=? 31)%nat.

Definition street_of (n : nat) : list nat := [n; n + 1; n + 2]%nat.
Definition corner_of (n : nat) : list nat := [n; n + 1; n + 3; n + 4]%nat.
Definition line_of (n : nat) : list nat :=
  [n; n + 1; n + 2; n + 3; n + 4; n + 5]%nat.

Definition dozen_name (d : nat) : string := "dozen(" +:+ fmt d +:+ ")".
Definition column_name (c : nat) : string := "column(" +:+ fmt c +:+ ")".

(** What a bin holds under a name: the plain Outcome of that name at odds
    [k] when [held], nothing otherwise. *)
Definition holds_iff (held : bool) (n : string) (k : Z) (bn : Bin) : bool :=
  bool_decide (bn !! n = if held then Some (plain_outcome n k) else None).

Definition member (i : nat) (ns : list nat) : bool :=
  existsb (fun n => (n =? i)%nat) ns.

(** The checks of the split, block, dozen and column outcomes on the bins
    [bs]. *)
Definition splits_ok (bs : list Bin) : bool :=
  all_below 38 (fun a => all_below 38 (fun b =>
    let n := dashed [a; b] in
    checked_bins (fun i =>
      holds_iff (split_pair a b && member i [a; b]) n 17) bs)).

Definition blocks_ok (bs : list Bin) : bool :=
  all_below 38 (fun n =>
    checked_bins (fun i bn =>
      holds_iff (street_start n && member i (street_of n))
        (dashed (street_of n)) 11 bn
      && holds_iff (corner_start n && member i (corner_of n))
           (dashed (corner_of n)) 8 bn
      && holds_iff (line_start n && member i (line_of n))
           (dashed (line_of n)) 5 bn) bs).

Definition dozens_columns_ok (bs : list Bin) : bool :=
  all_below 38 (fun d =>
    checked_bins (fun i bn =>
      holds_iff ((1 <=? i)%nat && (i <=? 36)%nat
                 && (d =? (i - 1) / 12 + 1)%nat) (dozen_name d) 2 bn
      && holds_iff ((1 <=? i)%nat && (i <=? 36)%nat
                    && (d =? (i - 1) mod 3 + 1)%nat) (column_name d) 2 bn)
      bs).

(** The bin of the European wheel that corresponds to a bin of the American
    wheel: without the five-bet, with the four-bet on 0..3 and with the
    straight bet on 0 as a PrisonOutcome. *)
Definition european_of (i : nat) (b : Bin) : Bin :=
  let b := delete "00-0-1-2-3" b in
  let b := if (i <? 4)%nat then <[ "0-1-2-3" := plain_outcome "0-1-2-3" 6 ]> b
           else b in
  if (i =? 0)%nat then <[ "0" := PrisonOutcome "0" 35 ]> b else b.

Definition european_differs_ok : bool :=
  all_below 38 (fun i =>
    bool_decide (european_bins !! i = european_of i <$> american_bins !! i)
    && match american_bins !! i with
       | Some bn =>
           holds_iff ((i <=? 3)%nat || (i =? 37)%nat) "00-0-1-2-3" 6 bn
       | None => false
       end).

(** ** Sessions with bounded stakes *)

(** A stake that is a number of 0..hi. *)
Definition within (hi : Z) (o : option Z) : Prop :=
  exists x, o = Some x /\ 0 <= x <= hi.

(** A table between two rounds whose limit is not negative. *)
Definition table_playable {G} (t : Table G) : Prop :=
  table_ready t /\ 0 <= limit t.

(** A Martingale player between two rounds with a stake of 0..hi, and the
    same of a SevenReds player. *)
Definition Martingale_bounded {G} (hi : Z) (s : Martingale * Table G) : Prop :=
  table_playable (snd s) /\ plain (black (fst s)) /\
  within hi (stake (m_player (fst s))).

Definition SevenReds_bounded {G} (hi : Z) (s : SevenReds * Table G) : Prop :=
  Martingale_bounded hi (sr_martingale (fst s), snd s).

(** [self.red in winners] *)
Definition red_wins (p : SevenReds) (winning : Bin) : bool :=
  wins (mkBet 0 (red p)) winning.

(** ** PlayerRandom, as far as its constructor goes

    [place_bets] draws with [rng.sample] from a set, whose order is that of
    the hashes of the interpreter; it is not modelled. *)

Record PlayerRandom (G : Type) : Type := mkPlayerRandom {
  pr_player : Player;
  pr_rng : G
}.
Arguments mkPlayerRandom {G} _ _.
Arguments pr_player {G} _.
Arguments pr_rng {G} _.

(** [random.Random(seed)] when the seed is true, the state of a new
    [random.Random()] otherwise. *)
Definition PlayerRandom_init `{RandomSource G} (fresh : G) (seed : option Z)
  : PlayerRandom G :=
  mkPlayerRandom Player_init
    (match seed with
     | Some z => if bool_decide (z ≠ 0) then rng_seed z else fresh
     | None => fresh
     end).

(** ** PlayerBuilder and SimulationBuilder *)

Inductive AnyPlayer (G : Type) : Type :=
| a_martingale (m : Martingale)
| a_sevenreds (p : SevenReds)
| a_passenger57 (p : Passenger57)
| a_random (p : PlayerRandom G).
Arguments a_martingale {G} _.
Arguments a_sevenreds {G} _.
Arguments a_passenger57 {G} _.
Arguments a_random {G} _.

(** [fresh] is the state of the generator that a random player creates. *)
Definition PlayerBuilder_get_player `{RandomSource G} (t : Table G)
    (mode : string) (seed : option Z) (fresh : G) : result (AnyPlayer G) :=
  if bool_decide (mode = "martingale") then Ok (a_martingale (Martingale_init t))
  else if bool_decide (mode = "sevenreds") then Ok (a_sevenreds (SevenReds_init t))
  else if bool_decide (mode = "passenger57")
       then Ok (a_passenger57 (Passenger57_init t))
  else if bool_decide (mode = "random")
       then Ok (a_random (PlayerRandom_init fresh seed))
  else Raise ValueError.

(** The builder: its seed and its game; the table of its PlayerBuilder is
    the table of the game. *)
Record SimulationBuilder (G : Type) : Type := mkSimulationBuilder {
  sb_seed : option Z;
  sb_game : Game G
}.
Arguments mkSimulationBuilder {G} _ _.
Arguments sb_seed {G} _.
Arguments sb_game {G} _.

(** [Wheel(seed)] when the seed is true, [Wheel()] otherwise; the rules are
    the default of [Wheel.__init__]. *)
Definition SimulationBuilder_init `{RandomSource G} (table_limit : Z)
    (seed : option Z) (fresh : G) : result (SimulationBuilder G) :=
  wheel ← (match seed with
           | Some z => if bool_decide (z ≠ 0)
                       then Wheel_init fresh (Some z) "american"
                       else Wheel_init fresh None "american"
           | None => Wheel_init fresh None "american"
           end);
  Ok (mkSimulationBuilder seed (mkGame (Table_init table_limit wheel))).

Inductive AnySimulator (G : Type) : Type :=
| sim_martingale (s : Simulator G Martingale)
| sim_sevenreds (s : Simulator G SevenReds)
| sim_passenger57 (s : Simulator G Passenger57)
| sim_random (s : Simulator G (PlayerRandom G)).
Arguments sim_martingale {G} _.
Arguments sim_sevenreds {G} _.
Arguments sim_passenger57 {G} _.
Arguments sim_random {G} _.

(** [Simulator.__init__], which is the same for every player. *)
Definition new_simulator {G P} (g : Game G) (p : P) : Simulator G P :=
  mkSimulator 250 100 50 [] [] p g.

Definition SimulationBuilder_get_simulator `{RandomSource G} (mode : string)
    (fresh : G) (sb : SimulationBuilder G) : result (AnySimulator G) :=
  p ← PlayerBuilder_get_player (table (sb_game sb)) mode (sb_seed sb) fresh;
  Ok (match p with
      | a_martingale m => sim_martingale (new_simulator (sb_game sb) m)
      | a_sevenreds q => sim_sevenreds (new_simulator (sb_game sb) q)
      | a_passenger57 q => sim_passenger57 (new_simulator (sb_game sb) q)
      | a_random q => sim_random (new_simulator (sb_game sb) q)
      end).

(** * Properties *)

(** ** The wheels that [Wheel.__init__] builds *)

(** The builders never look at the generator of the wheel: building on a
    wheel with another generator gives the same bins and outcomes. *)
Section Retag.
Context {G : Type} (g : G).
Local Abbreviation U := (Wheel unit).
Local Abbreviation W := (Wheel G).

Lemma add_outcome_retag i o :
  same_build g (Wheel_add_outcome i o) (Wheel_add_outcome i o).
Proof.
  intros w. unfold Wheel_add_outcome. simpl.
  destruct (bins w !! i); reflexivity.
Qed.

Lemma bind_retag (f' k' : W -> result W) (f k : U -> result U) :
  same_build g f' f -> same_build g k' k ->
  same_build g (fun w => f' w ≫= k') (fun w => f w ≫= k).
Proof.
  intros Hf Hk w. rewrite Hf. destruct (f w) as [w1|e]; simpl; [apply Hk | reflexivity].
Qed.

Lemma for_each_retag {A} (xs : list A) (body' : A -> W -> result W)
    (body : A -> U -> result U) :
  (forall x, same_build g (body' x) (body x)) ->
  same_build g (for_each xs body') (for_each xs body).
Proof.
  intros Hb. induction xs as [|x xs IH]; intros w; simpl; [reflexivity|].
  apply (bind_retag (body' x) _ (body x) _); [apply Hb | apply IH].
Qed.

Lemma if_retag (c : bool) (a' b' : W -> result W) (a b : U -> result U) :
  same_build g a' a -> same_build g b' b ->
  same_build g (fun w => if c then a' w else b' w)
             (fun w => if c then a w else b w).
Proof. destruct c; auto. Qed.

Lemma ok_retag : same_build g Ok Ok.
Proof. intros w. reflexivity. Qed.
End Retag.

Ltac same_build :=
  repeat first
    [ apply add_outcome_retag
    | apply ok_retag
    | apply for_each_retag; intros
    | apply (bind_retag _ _ _ _ _)
    | apply (if_retag _ _ _ _ _ _) ].

Lemma BinBuilder_retag {G} (g : G) :
  same_build g BinBuilder_build_bins BinBuilder_build_bins.
Proof.
  unfold BinBuilder_build_bins, build_bins_with, add_straight_bets,
    add_split_bets, add_left_right_pair, add_top_down_pair, add_street_bets,
    add_corner_bets, add_corner_block, add_line_bets, add_dozen_bets,
    add_column_bets, add_even_money_bets, add_five_bets.
  cbv zeta. same_build.
Qed.

Lemma EuroBinBuilder_retag {G} (g : G) :
  same_build g EuroBinBuilder_build_bins EuroBinBuilder_build_bins.
Proof.
  unfold EuroBinBuilder_build_bins, build_bins_with, Euro_add_straight_bets,
    Euro_add_five_bets, Euro_add_four_bets,
    add_split_bets, add_left_right_pair, add_top_down_pair, add_street_bets,
    add_corner_bets, add_corner_block, add_line_bets, add_dozen_bets,
    add_column_bets, add_even_money_bets.
  cbv zeta. same_build.
Qed.

Lemma american_ok : is_ok (BinBuilder_build_bins (empty_wheel tt)) = true.
Proof. vm_compute. reflexivity. Qed.

Lemma european_ok : is_ok (EuroBinBuilder_build_bins (empty_wheel tt)) = true.
Proof. vm_compute. reflexivity. Qed.

Lemma american_build {G} (g : G) :
  BinBuilder_build_bins (empty_wheel g)
  = Ok (mkWheel american_bins g american_outcomes).
Proof.
  change (empty_wheel g) with (retag g (empty_wheel tt)).
  rewrite BinBuilder_retag. unfold american_bins, american_outcomes.
  pose proof american_ok as Hok.
  destruct (BinBuilder_build_bins (empty_wheel tt)); [reflexivity | discriminate].
Qed.

Lemma european_build {G} (g : G) :
  EuroBinBuilder_build_bins (empty_wheel g)
  = Ok (mkWheel european_bins g european_outcomes).
Proof.
  change (empty_wheel g) with (retag g (empty_wheel tt)).
  rewrite EuroBinBuilder_retag. unfold european_bins, european_outcomes.
  pose proof european_ok as Hok.
  destruct (EuroBinBuilder_build_bins (empty_wheel tt)); [reflexivity | discriminate].
Qed.

Lemma Wheel_init_built `{RandomSource G} (fresh : G) seed rules :
  Wheel_init fresh seed rules
  = Ok (mkWheel (bins_for rules) (initial_rng fresh seed) (outcomes_for rules)).
Proof.
  unfold Wheel_init, bins_for, outcomes_for.
  change (mkWheel (replicate 38 (Bin_of [])) ?g ∅) with (empty_wheel g).
  fold (initial_rng fresh seed).
  case_bool_decide; [apply american_build|].
  case_bool_decide; [apply european_build|].
  reflexivity.
Qed.

Lemma bins_for_length rules : length (bins_for rules) = 38%nat.
Proof.
  unfold bins_for. repeat case_bool_decide; vm_compute; reflexivity.
Qed.

Lemma bins_for_american : bins_for "american" = american_bins.
Proof. unfold bins_for. case_bool_decide; [reflexivity | congruence]. Qed.

Lemma bins_for_european : bins_for "european" = european_bins.
Proof.
  unfold bins_for. case_bool_decide; [discriminate|].
  case_bool_decide; [reflexivity | congruence].
Qed.

Lemma bins_for_other rules :
  rules ≠ "american" -> rules ≠ "european" -> bins_for rules = replicate 38 ∅.
Proof. intros Ha He. unfold bins_for. repeat case_bool_decide; congruence. Qed.

Lemma outcomes_for_other rules :
  rules ≠ "american" -> rules ≠ "european" -> outcomes_for rules = ∅.
Proof. intros Ha He. unfold outcomes_for. repeat case_bool_decide; congruence. Qed.

(** *** Even-money outcomes of the default wheel *)

Lemma checked_bins_lookup check bs i :
  checked_bins check bs = true -> (i < 38)%nat ->
  exists b, bs !! i = Some b /\ check i b = true.
Proof.
  unfold checked_bins. rewrite forallb_forall. intros Hall Hi.
  specialize (Hall i). rewrite in_seq in Hall.
  destruct (bs !! i) as [b|]; [exists b; split; [reflexivity | apply Hall; lia]|].
  discriminate Hall. lia.
Qed.

Lemma american_even_money : checked_bins even_money_ok american_bins = true.
Proof. vm_compute. reflexivity. Qed.

(** C7: in a wheel built with the default (American) rules, each of the bins
    1..36 holds exactly one of high/low, exactly one of even/odd and exactly
    one of red/black; the bins 0 and 37 hold none of the six even-money
    outcomes. *)
Theorem default_wheel_even_money `{RandomSource G} (fresh : G) seed w i :
  Wheel_init fresh seed "american" = Ok w ->
  (i < 38)%nat ->
  exists b, bins w !! i = Some b /\
    ((1 <= i <= 36)%nat ->
       one_of "high" "low" b = true /\ one_of "even" "odd" b = true /\
       one_of "red" "black" b = true) /\
    (i = 0%nat \/ i = 37%nat ->
       Forall (fun n => Bin_has n b = false) even_money).
Proof.
  intros Hw Hi. rewrite Wheel_init_built, bins_for_american in Hw.
  injection Hw as <-. simpl bins.
  destruct (checked_bins_lookup _ _ i american_even_money Hi) as (b & Hb & Hok).
  exists b. split; [exact Hb|]. unfold even_money_ok in Hok. split.
  - intros [Hlo Hhi].
    apply Nat.leb_le in Hlo. apply Nat.leb_le in Hhi.
    rewrite Hlo, Hhi in Hok. simpl in Hok.
    apply andb_prop in Hok as [Hok Hrb]. apply andb_prop in Hok as [Hhl Heo].
    auto.
  - intros Hends.
    assert (((1 <=? i)%nat && (i <=? 36)%nat) = false) as Hc.
    { destruct Hends; subst i; reflexivity. }
    rewrite Hc in Hok. rewrite forallb_forall in Hok.
    apply Forall_forall. intros n Hn. apply list_elem_of_In in Hn.
    specialize (Hok n Hn). destruct (Bin_has n b); [discriminate | reflexivity].
Qed.

Lemma sample_wheel_init : Wheel_init [] None "american" = Ok sample_wheel.
Proof.
  rewrite Wheel_init_built, bins_for_american. unfold outcomes_for.
  rewrite bool_decide_eq_true_2 by reflexivity. reflexivity.
Qed.

Lemma default_wheel_even_money_witness :
  Wheel_init [] None "american" = Ok sample_wheel /\ (7 < 38)%nat /\
  exists b, bins sample_wheel !! 7%nat = Some b /\
    ((1 <= 7 <= 36)%nat ->
       one_of "high" "low" b = true /\ one_of "even" "odd" b = true /\
       one_of "red" "black" b = true) /\
    (7%nat = 0%nat \/ 7%nat = 37%nat ->
       Forall (fun n => Bin_has n b = false) even_money).
Proof.
  assert (7 < 38)%nat as Hi by lia.
  split; [exact sample_wheel_init|]. split; [exact Hi|].
  exact (default_wheel_even_money [] None sample_wheel 7%nat
           sample_wheel_init Hi).
Defined.

(** *** The rule selector of [Wheel.__init__] *)

Lemma is_Some_true {A} (o : option A) b :
  bool_decide (is_Some o) = b -> (is_Some o <-> b = true).
Proof. intros <-. symmetry. apply bool_decide_eq_true. Qed.

Lemma american_populated :
  populated false true false american_bins american_outcomes.
Proof.
  unfold populated. split; [vm_compute; reflexivity|].
  split; [vm_compute; reflexivity|].
  split; [vm_compute; reflexivity|].
  split; [vm_compute; reflexivity|].
  split; apply is_Some_true; vm_compute; reflexivity.
Qed.

Lemma european_populated :
  populated true false true european_bins european_outcomes.
Proof.
  unfold populated. split; [vm_compute; reflexivity|].
  split; [vm_compute; reflexivity|].
  split; [vm_compute; reflexivity|].
  split; [vm_compute; reflexivity|].
  split; apply is_Some_true; vm_compute; reflexivity.
Qed.

(** C5, as the code has it: the selectors are "american" (the default of the
    argument) and "european".  "american" gives the wheel of BinBuilder, with
    every straight bet, the five-bet and no four-bet; "european" gives the
    wheel of EuroBinBuilder, with the prison outcome on 0, the four-bet and
    no five-bet; every other selector gives a wheel whose 38 bins are empty
    and that knows no outcome. *)
Theorem Wheel_init_selector `{RandomSource G} (fresh : G) seed rules :
  exists w, Wheel_init fresh seed rules = Ok w /\
    rng w = initial_rng fresh seed /\
    (rules = "american" ->
       populated false true false (bins w) (all_outcomes w)) /\
    (rules = "european" ->
       populated true false true (bins w) (all_outcomes w)) /\
    (rules ≠ "american" -> rules ≠ "european" ->
       bins w = replicate 38 ∅ /\ all_outcomes w = ∅).
Proof.
  eexists. split; [apply Wheel_init_built|]. simpl.
  split; [reflexivity|]. split; [|split].
  - intros ->. rewrite bins_for_american. unfold outcomes_for.
    rewrite bool_decide_eq_true_2 by reflexivity. apply american_populated.
  - intros ->. rewrite bins_for_european. unfold outcomes_for.
    rewrite bool_decide_eq_false_2 by discriminate.
    rewrite bool_decide_eq_true_2 by reflexivity. apply european_populated.
  - intros Ha He. split; [apply bins_for_other | apply outcomes_for_other]; assumption.
Qed.

Lemma Wheel_init_selector_witness :
  "prison" ≠ "american" /\ "prison" ≠ "european" /\
  exists w, Wheel_init (G:=list Z) [] None "prison" = Ok w /\
    rng w = initial_rng [] None /\
    ("prison" = "american" ->
       populated false true false (bins w) (all_outcomes w)) /\
    ("prison" = "european" ->
       populated true false true (bins w) (all_outcomes w)) /\
    ("prison" ≠ "american" -> "prison" ≠ "european" ->
       bins w = replicate 38 ∅ /\ all_outcomes w = ∅).
Proof.
  split; [discriminate|]. split; [discriminate|].
  exact (Wheel_init_selector (G:=list Z) [] None "prison").
Defined.

(** C5 as stated fails: the selector "default" is not one the code knows, and
    the wheel it gives has 38 empty bins. *)
Lemma Wheel_default_selector_empty :
  Wheel_init (G:=list Z) [] None "default"
    = Ok (mkWheel (replicate 38 ∅) [] ∅) /\
  ~ populated false true false (replicate 38 ∅) ∅.
Proof.
  split.
  - rewrite Wheel_init_built.
    rewrite bins_for_other, outcomes_for_other by discriminate. reflexivity.
  - intros (_ & Hstraight & _). vm_compute in Hstraight. discriminate.
Qed.

(** *** Seeds *)

(** With a seed that is not 0 the generator state is that of the seed: the
    two wheels agree on every sequence of spins, whatever state their
    generators were created in. *)
Lemma Wheel_same_seed_same_spins `{RandomSource G} (f1 f2 : G) z rules w1 w2 n :
  z ≠ 0 ->
  Wheel_init f1 (Some z) rules = Ok w1 ->
  Wheel_init f2 (Some z) rules = Ok w2 ->
  Wheel_spins n w1 = Wheel_spins n w2.
Proof.
  intros Hz H1 H2. rewrite Wheel_init_built in H1, H2.
  simpl in H1, H2. rewrite bool_decide_eq_true_2 in H1, H2 by assumption.
  congruence.
Qed.

(** C8 at seed 0: [if seed:] takes 0 for no seed, so the wheel keeps the
    state its generator was created in; two wheels built with seed 0 and the
    same rules then spin different bins when those states differ. *)
Theorem Wheel_seed_zero_not_seeded :
  (forall `{RandomSource G} (fresh : G) rules,
      exists w, Wheel_init fresh (Some 0) rules = Ok w /\ rng w = fresh) /\
  (exists w1 w2,
      Wheel_init (G:=list Z) [5] (Some 0) "american" = Ok w1 /\
      Wheel_init (G:=list Z) [6] (Some 0) "american" = Ok w2 /\
      Wheel_spins 1 w1 ≠ Wheel_spins 1 w2).
Proof.
  split.
  - intros G RS fresh rules. eexists. split; [apply Wheel_init_built|].
    reflexivity.
  - do 2 eexists. split; [apply Wheel_init_built|].
    split; [apply Wheel_init_built|].
    rewrite bins_for_american. intros Heq.
    apply (f_equal (fun l => match l with
                             | [Ok b] => Bin_has "5" b
                             | _ => false
                             end)) in Heq.
    vm_compute in Heq. discriminate.
Qed.

(** ** Table.place_bet *)

Lemma total_wagered_app (bs : list Bet) (b : Bet) :
  total_wagered (bs ++ [b]) = total_wagered bs + amount b.
Proof. induction bs as [|x bs IH]; simpl; lia. Qed.

Lemma Table_place_bet_unfold {G} (b : Bet) (t : Table G) :
  Table_place_bet b t
  = (if bool_decide (total_wagered (bets t) + amount b > limit t)
     then Raise InvalidBet else Ok tt,
     Table_append b t).
Proof.
  unfold Table_place_bet, Table_is_valid, mbind, eff_bind, modify, get. simpl.
  rewrite total_wagered_app. case_bool_decide; reflexivity.
Qed.

(** With limit 100 and 90 on the table, a bet of 10 is taken and a bet of 11
    raises. *)
Example place_bet_10_on_90 :
  fst (Table_place_bet (mkBet 10 (Some black_outcome)) table_at_90) = Ok tt.
Proof. reflexivity. Qed.

Example place_bet_11_on_90 :
  fst (Table_place_bet (mkBet 11 (Some black_outcome)) table_at_90)
  = Raise InvalidBet.
Proof. reflexivity. Qed.

(** Placing a bet and clearing the table leaves no bet. *)
Example place_then_clear {G} (b : Bet) (t : Table G) :
  bets (Table_clear_bets (snd (Table_place_bet b t))) = [].
Proof. reflexivity. Qed.

(** C2 on the code: when the bet brings the total over the limit,
    [place_bet] raises InvalidBet after the append and does not take the bet
    back, so the list has grown by the bet and its total exceeds the
    limit. *)
Theorem Table_place_bet_keeps_rejected_bet {G} (t : Table G) (b : Bet) :
  total_wagered (bets t) + amount b > limit t ->
  Table_place_bet b t
    = (Raise InvalidBet, mkTable (limit t) (bets t ++ [b]) (wheel t)) /\
  bets (snd (Table_place_bet b t)) ≠ bets t /\
  total_wagered (bets (snd (Table_place_bet b t))) > limit t.
Proof.
  intros Hover. rewrite Table_place_bet_unfold.
  rewrite bool_decide_eq_true_2 by assumption. simpl.
  split; [reflexivity|]. split.
  - intros Heq. apply (f_equal length) in Heq.
    rewrite length_app in Heq. simpl in Heq. lia.
  - rewrite total_wagered_app. assumption.
Qed.

Lemma Table_place_bet_keeps_rejected_bet_witness :
  total_wagered (bets table_at_90) + 11 > limit table_at_90 /\
  bets (snd (Table_place_bet (mkBet 11 (Some black_outcome)) table_at_90))
    = [mkBet 90 (Some black_outcome); mkBet 11 (Some black_outcome)] /\
  total_wagered
    (bets (snd (Table_place_bet (mkBet 11 (Some black_outcome)) table_at_90)))
    = 101.
Proof.
  assert (total_wagered (bets table_at_90)
          + amount (mkBet 11 (Some black_outcome)) > limit table_at_90) as Hover
    by (simpl; lia).
  split; [exact Hover|].
  destruct (Table_place_bet_keeps_rejected_bet table_at_90
              (mkBet 11 (Some black_outcome)) Hover) as (Heq & _ & _).
  rewrite Heq. split; reflexivity.
Defined.

(** ** Player.win and Player.lose *)

(** C3 on the code: [win] returns amount * odds and [lose] returns 0 for a
    plain Outcome; for a PrisonOutcome [lose] does not return half the win
    amount: [bet.lose_amount] is the method, not its result, and the product
    with 0.5 raises TypeError. *)
Theorem Player_win_lose (a : Z) (n : string) (o : Z) (p : bool) :
  Player_win (mkBet a (Some (mkOutcome n o p))) = Ok (VInt (a * o)) /\
  Player_lose (mkBet a (Some (plain_outcome n o))) = Ok (VInt 0) /\
  Player_lose (mkBet a (Some (PrisonOutcome n o))) = Raise TypeError.
Proof. repeat split. Qed.

(** ** Martingale *)

(** C4: a win resets the multiplier to 0 and adds the amount of the bet to
    the stake; a loss adds 1 to the multiplier and leaves the stake.  For a
    bet at odds 1, as the bets on "black" are, the amount added is the win
    amount that [win] returns. *)
Theorem Martingale_win_lose (m : Martingale) (b : Bet) (s : Z) :
  stake (m_player m) = Some s ->
  Martingale_win b m
    = (Player_win b,
       mkMartingale (mkPlayer (Some (s + amount b)) (rounds (m_player m)))
         0 (black m)) /\
  Martingale_lose b m
    = (Player_lose b,
       mkMartingale (mkPlayer (Some s) (rounds (m_player m)))
         (multiplier m + 1) (black m)) /\
  (forall o, outcome b = Some o -> odds o = 1 ->
             Player_win b = Ok (VInt (amount b))).
Proof.
  intros Hs. destruct m as [[st rd] k bl]. simpl in Hs. subst st.
  split; [|split].
  - unfold Martingale_win, mbind, eff_bind, modify, get, lift_result. simpl.
    reflexivity.
  - reflexivity.
  - intros o Ho Hodds. unfold Player_win, Bet_win_amount. rewrite Ho. simpl.
    rewrite Hodds. do 2 f_equal. lia.
Qed.

Lemma Martingale_win_lose_witness :
  stake (m_player martingale_sample) = Some 93 /\
  Martingale_win (mkBet 8 (Some black_outcome)) martingale_sample
    = (Ok (VInt 8),
       mkMartingale (mkPlayer (Some 101) (Some 247)) 0 (Some black_outcome)) /\
  Martingale_lose (mkBet 8 (Some black_outcome)) martingale_sample
    = (Ok (VInt 0),
       mkMartingale (mkPlayer (Some 93) (Some 247)) 4 (Some black_outcome)).
Proof.
  assert (stake (m_player martingale_sample) = Some 93) as Hs by reflexivity.
  split; [exact Hs|].
  destruct (Martingale_win_lose martingale_sample
              (mkBet 8 (Some black_outcome)) 93 Hs) as (Hw & Hl & _).
  split; [exact Hw | exact Hl].
Defined.

(** ** Game.cycle, step by step *)

Section CycleFacts.
Context `{RandomSource G} `{Strategy G P}.

Lemma Game_cycle_unfold (p : P) (t : Table G) :
  Game_cycle (p, t) =
    match (if playing p then place_bets (p, t) else (Ok tt, (p, t))) with
    | (Raise e, s1) => (Raise e, s1)
    | (Ok _, (p1, t1)) =>
        match Wheel_next (wheel t1) with
        | (Raise e, w') => (Raise e, (p1, with_wheel t1 w'))
        | (Ok winning, w') =>
            match resolve winning (bets t1) (winners winning p1) with
            | (Raise e, p3) => (Raise e, (p3, with_wheel t1 w'))
            | (Ok vs, p3) =>
                (Ok (py_sum vs, length vs),
                 (p3, Table_clear_bets (with_wheel t1 w')))
            end
        end
    end.
Proof.
  unfold Game_cycle, mbind, eff_bind, get, modify, on_snd, on_fst, spin.
  simpl.
  assert ((if playing p then place_bets else mret tt) (p, t)
          = (if playing p then place_bets (p, t) else (Ok tt, (p, t)))) as ->
    by (destruct (playing p); reflexivity).
  destruct (if playing p then place_bets (p, t) else (Ok tt, (p, t)))
    as [[[]|e] [p1 t1]]; [|reflexivity].
  simpl. destruct (Wheel_next (wheel t1)) as [[winning|e] w'];
    [|reflexivity].
  simpl. destruct (resolve winning (bets t1) (winners winning p1))
    as [[vs|e] p3]; reflexivity.
Qed.

(** A wheel with 38 bins always finds the bin it draws. *)
Lemma Wheel_next_ok (w : Wheel G) :
  length (bins w) = 38%nat ->
  exists b g, Wheel_next w = (Ok b, mkWheel (bins w) g (all_outcomes w)).
Proof.
  intros Hlen. unfold Wheel_next.
  pose proof (randint_range 0 37 (rng w) ltac:(lia)) as Hr.
  destruct (randint 0 37 (rng w)) as [i g]. simpl in Hr.
  destruct (lookup_lt_is_Some_2 (bins w) (Z.to_nat i)) as [b Hb]; [lia|].
  rewrite Hb. eauto.
Qed.
End CycleFacts.

(** ** Martingale.place_bets *)

Lemma Martingale_amount_min (k : nat) (lim s : Z) :
  Martingale_amount k lim s = Z.min (Z.min (2 ^ Z.of_nat k) lim) s.
Proof. unfold Martingale_amount. repeat case_bool_decide; lia. Qed.

Lemma Martingale_place_bets_unfold {G} (m : Martingale) (t : Table G) s :
  stake (m_player m) = Some s ->
  let a := Martingale_amount (multiplier m) (limit t) s in
  Martingale_place_bets (m, t)
  = (if bool_decide (total_wagered (bets t) + a > limit t)
     then Raise InvalidBet else Ok tt,
     (mkMartingale (mkPlayer (Some (s - a)) (rounds (m_player m)))
        (multiplier m) (black m),
      Table_append (mkBet a (black m)) t)).
Proof.
  intros Hs a. unfold Martingale_place_bets, mbind, eff_bind, get, modify, on_snd.
  simpl. rewrite Hs. simpl. rewrite Table_place_bet_unfold. simpl.
  fold a. case_bool_decide; reflexivity.
Qed.

(** C6: the bet that [place_bets] puts on the table has the amount
    min(2^multiplier, limit, stake), which is taken off the stake; with limit
    500 and stake 1000, after three lost rounds the fourth bet is 8. *)
Theorem Martingale_bet_amount :
  (forall G (m : Martingale) (t : Table G) (s : Z),
      stake (m_player m) = Some s ->
      let a := Z.min (Z.min (2 ^ Z.of_nat (multiplier m)) (limit t)) s in
      bets (snd (snd (Martingale_place_bets (m, t))))
        = bets t ++ [mkBet a (black m)] /\
      stake (m_player (fst (snd (Martingale_place_bets (m, t)))))
        = Some (s - a)) /\
  fourth_bet
    = Some (mkMartingale (mkPlayer (Some 993) (Some 247)) 3
              (Some black_outcome),
            [mkBet 8 (Some black_outcome)]).
Proof.
  split.
  - intros G m t s Hs a.
    rewrite (Martingale_place_bets_unfold m t s Hs).
    rewrite Martingale_amount_min. fold a. simpl. split; reflexivity.
  - vm_compute. reflexivity.
Qed.

Lemma Martingale_bet_amount_witness :
  stake (m_player martingale_sample) = Some 93 /\
  bets (snd (snd (Martingale_place_bets (martingale_sample, table_at_90))))
    = bets table_at_90
      ++ [mkBet (Z.min (Z.min (2 ^ Z.of_nat 3) 100) 93) (Some black_outcome)].
Proof.
  assert (stake (m_player martingale_sample) = Some 93) as Hs by reflexivity.
  split; [exact Hs|].
  exact (proj1 (proj1 Martingale_bet_amount (list Z) martingale_sample
                  table_at_90 93 Hs)).
Defined.

(** ** Strategies that size their bet within the limit *)

Lemma Wheel_next_raises `{RandomSource G} (w : Wheel G) e w' :
  Wheel_next w = (Raise e, w') -> e = IndexError.
Proof.
  unfold Wheel_next. destruct (randint 0 37 (rng w)) as [i g].
  destruct (bins w !! Z.to_nat i); intros [= <- _]; reflexivity.
Qed.

Section ClampedFacts.
Context `{RandomSource G} `{St : Strategy G P} `{!Clamped St}.

Lemma resolve_not_InvalidBet winning bs p e p' :
  resolve winning bs p = (Raise e, p') -> e ≠ InvalidBet.
Proof.
  revert p. induction bs as [|b bs IH]; intros p; simpl.
  - intros [=].
  - unfold mbind, eff_bind.
    destruct ((if wins b winning then win b else lose b) p)
      as [[v|e1] p1] eqn:Hb.
    + destruct (resolve winning bs p1) as [[vs|e2] p2] eqn:Hr.
      * intros [=].
      * intros [= <- <-]. eapply IH, Hr.
    + intros [= <- <-].
      destruct (wins b winning);
        [eapply win_not_InvalidBet | eapply lose_not_InvalidBet]; exact Hb.
Qed.

(** A round that starts on a table without bets does not raise InvalidBet,
    and leaves the table without bets when it returns. *)
Lemma cycle_clamped p t r p' t' :
  bets t = [] -> Game_cycle (p, t) = (r, (p', t')) ->
  match r with
  | Ok _ => bets t' = []
  | Raise e => e ≠ InvalidBet
  end.
Proof.
  intros Hempty. rewrite Game_cycle_unfold.
  destruct (if playing p then place_bets (p, t) else (Ok tt, (p, t)))
    as [[[]|e] [p1 t1]] eqn:Hplace.
  - destruct (Wheel_next (wheel t1)) as [[winning|e] w'] eqn:Hnext.
    + destruct (resolve winning (bets t1) (winners winning p1))
        as [[vs|e] p3] eqn:Hres.
      * intros [= <- <- <-]. reflexivity.
      * intros [= <- <- <-]. eapply resolve_not_InvalidBet, Hres.
    + intros [= <- <- <-]. apply Wheel_next_raises in Hnext. subst e.
      discriminate.
  - intros [= <- <- <-]. destruct (playing p); [|discriminate Hplace].
    eapply place_bets_clamped; eassumption.
Qed.

Lemma session_loop_clamped fuel stakes d p t r s' :
  bets t = [] -> session_loop fuel stakes d (p, t) = Some (r, s') ->
  r ≠ Raise InvalidBet.
Proof.
  revert stakes d p t. induction fuel as [|fuel IH]; intros stakes d p t Hempty;
    simpl; destruct (playing p); try discriminate;
    try (intros [= <- <-]; discriminate).
  destruct (Game_cycle (p, t)) as [[v|e] [p1 t1]] eqn:Hc;
    pose proof (cycle_clamped _ _ _ _ _ Hempty Hc) as Hr; simpl in Hr.
  - apply IH. exact Hr.
  - intros [= <- <-]. congruence.
Qed.

Lemma py_max_not_InvalidBet xs : py_max xs ≠ Raise InvalidBet.
Proof.
  destruct xs as [|x xs]; [discriminate|]. simpl.
  revert x. induction xs as [|y xs IH]; intros x; simpl; [discriminate|].
  destruct y as [y|], x as [x|]; simpl; try discriminate; apply IH.
Qed.

Lemma session_clamped fuel (sim : Simulator G P) r sim' :
  bets (table (game sim)) = [] ->
  Simulator_session fuel sim = Some (r, sim') -> r ≠ Raise InvalidBet.
Proof.
  intros Hempty. unfold Simulator_session.
  destruct (session_loop _ _ _ _) as [[[[stakes d]|e] [p' t']]|] eqn:Hloop;
    [| |discriminate].
  - pose proof (py_max_not_InvalidBet stakes) as Hmax.
    destruct (py_max stakes); intros [= <- <-]; congruence.
  - intros [= <- <-] [= ->].
    eapply session_loop_clamped; [eassumption | eassumption | reflexivity].
Qed.
End ClampedFacts.

Lemma Player_win_raises b e : Player_win b = Raise e -> e = AttributeError.
Proof.
  unfold Player_win, Bet_win_amount. destruct (outcome b); simpl; congruence.
Qed.

Lemma Player_lose_raises b e : Player_lose b = Raise e -> e = TypeError.
Proof.
  unfold Player_lose. destruct (is_prison b); simpl; congruence.
Qed.

Lemma Martingale_amount_le_limit k lim s : Martingale_amount k lim s <= lim.
Proof. rewrite Martingale_amount_min. lia. Qed.

Lemma Martingale_place_bets_clamped {G} (m : Martingale) (t : Table G) e s' :
  bets t = [] -> Martingale_place_bets (m, t) = (Raise e, s') -> e ≠ InvalidBet.
Proof.
  intros Hempty. destruct (stake (m_player m)) as [s|] eqn:Hs.
  - rewrite (Martingale_place_bets_unfold m t s Hs). rewrite Hempty. simpl.
    pose proof (Martingale_amount_le_limit (multiplier m) (limit t) s).
    rewrite bool_decide_eq_false_2 by lia. discriminate.
  - unfold Martingale_place_bets, mbind, eff_bind, get, raise. simpl.
    rewrite Hs. intros [= <- _]. discriminate.
Qed.

Lemma Martingale_win_raises b m e m' :
  Martingale_win b m = (Raise e, m') -> e ≠ InvalidBet.
Proof.
  unfold Martingale_win, mbind, eff_bind, modify, get, raise, lift_result.
  simpl. destruct (stake (m_player m)); simpl.
  - intros [= Hw _]. apply Player_win_raises in Hw. subst e. discriminate.
  - intros [= <- _]. discriminate.
Qed.

Lemma Martingale_lose_raises b m e m' :
  Martingale_lose b m = (Raise e, m') -> e ≠ InvalidBet.
Proof.
  unfold Martingale_lose, mbind, eff_bind, modify, lift_result. simpl.
  intros [= Hl _]. apply Player_lose_raises in Hl. subst e. discriminate.
Qed.

Instance Martingale_clamped {G} : Clamped (Martingale_strategy (G:=G)).
Proof.
  split; simpl.
  - intros p t e s'. apply Martingale_place_bets_clamped.
  - intros b p e p'. apply Martingale_win_raises.
  - intros b p e p'. apply Martingale_lose_raises.
Qed.

Instance SevenReds_clamped {G} : Clamped (SevenReds_strategy (G:=G)).
Proof.
  split; simpl.
  - intros p t e s' Hempty. unfold SevenReds_place_bets, mbind, eff_bind, get.
    simpl. case_bool_decide; [|discriminate].
    unfold with_martingale.
    destruct (Martingale_place_bets (sr_martingale p, t)) as [r [m' t']] eqn:Hm.
    intros [= -> _]. eapply Martingale_place_bets_clamped; eassumption.
  - intros b p e p'. unfold SevenReds_lift.
    destruct (Martingale_win b (sr_martingale p)) as [r m'] eqn:Hm.
    intros [= -> _]. eapply Martingale_win_raises; eassumption.
  - intros b p e p'. unfold SevenReds_lift.
    destruct (Martingale_lose b (sr_martingale p)) as [r m'] eqn:Hm.
    intros [= -> _]. eapply Martingale_lose_raises; eassumption.
Qed.

(** C9: the amount a Martingale player bets is at most the table limit; on a
    table without bets [place_bets] of Martingale and of SevenReds does not
    raise InvalidBet; and a session of a Martingale or a SevenReds player
    that starts on a table without bets never ends in InvalidBet: every
    round finds the table cleared by the round before, and the one bet fits
    the limit. *)
Theorem Martingale_family_never_InvalidBet `{RandomSource G} :
  (forall k lim s, Martingale_amount k lim s <= lim) /\
  (forall (m : Martingale) (t : Table G) e s',
      bets t = [] ->
      Martingale_place_bets (m, t) = (Raise e, s') -> e ≠ InvalidBet) /\
  (forall (p : SevenReds) (t : Table G) e s',
      bets t = [] ->
      SevenReds_place_bets (p, t) = (Raise e, s') -> e ≠ InvalidBet) /\
  (forall fuel (sim : Simulator G Martingale) r sim',
      bets (table (game sim)) = [] ->
      Simulator_session fuel sim = Some (r, sim') -> r ≠ Raise InvalidBet) /\
  (forall fuel (sim : Simulator G SevenReds) r sim',
      bets (table (game sim)) = [] ->
      Simulator_session fuel sim = Some (r, sim') -> r ≠ Raise InvalidBet).
Proof.
  split; [apply Martingale_amount_le_limit|].
  split; [intros m t e s'; apply Martingale_place_bets_clamped|].
  split; [intros p t e s'; apply (place_bets_clamped (St:=SevenReds_strategy))|].
  split; intros fuel sim r sim'; apply session_clamped.
Qed.

Lemma Martingale_family_never_InvalidBet_witness :
  bets (table (game martingale_sim)) = [] /\
  exists r sim', Simulator_session 10 martingale_sim = Some (r, sim') /\
                 r ≠ Raise InvalidBet.
Proof.
  assert (bets (table (game martingale_sim)) = []) as Hempty by reflexivity.
  split; [exact Hempty|].
  assert (ended (Simulator_session 10 martingale_sim) = true) as Hended
    by (vm_compute; reflexivity).
  destruct (Simulator_session 10 martingale_sim) as [[r sim']|] eqn:Hs;
    [|discriminate Hended].
  exists r, sim'. split; [reflexivity|].
  exact (proj1 (proj2 (proj2 (proj2
                  (Martingale_family_never_InvalidBet (G:=list Z)))))
           10%nat martingale_sim r sim' Hempty Hs).
Defined.

(** ** Sessions *)

Lemma Player_playing_true p :
  Player_playing p = true ->
  exists r s, rounds p = Some r /\ stake p = Some s /\ r > 0 /\ s > 0.
Proof.
  unfold Player_playing. destruct (rounds p) as [r|], (stake p) as [s|];
    try discriminate.
  repeat case_bool_decide; simpl; try discriminate.
  intros _. exists r, s. auto.
Qed.

(** [max] of stakes that start with a number: when it returns, it returns a
    number that is at least the first. *)
Lemma py_max_first x rest m :
  py_max (Some x :: rest) = Ok m -> exists z, m = Some z /\ x <= z.
Proof.
  simpl. revert x. induction rest as [|y rest IH]; intros x; simpl.
  - intros [= <-]. exists x. split; [reflexivity | lia].
  - destruct y as [y|]; simpl; [|discriminate].
    case_bool_decide; intros Hm; apply IH in Hm as (z & -> & Hz);
      exists z; (split; [reflexivity | lia]).
Qed.

Lemma py_max_numbers xs :
  xs ≠ [] -> Forall is_Some xs -> exists m, py_max xs = Ok m.
Proof.
  destruct xs as [|x xs]; [congruence|]. intros _ Hall.
  apply Forall_cons in Hall as [[x0 ->] Hall]. simpl.
  revert x0. induction Hall as [|y ys [y0 ->] _ IH]; intros x0; simpl.
  - eauto.
  - case_bool_decide; apply IH.
Qed.

Section SessionFacts.
Context `{RandomSource G} `{St : Strategy G P}.

Lemma resolve_rounds `{!Budgeted St} winning bs p :
  rounds (base (snd (resolve winning bs p))) = rounds (base p).
Proof.
  revert p. induction bs as [|b bs IH]; intros p; simpl; [reflexivity|].
  unfold mbind, eff_bind.
  assert (rounds (base (snd ((if wins b winning then win b else lose b) p)))
          = rounds (base p)) as Hb
    by (destruct (wins b winning); [apply win_rounds | apply lose_rounds]).
  destruct ((if wins b winning then win b else lose b) p) as [[v|e] p1];
    simpl in *; [|exact Hb].
  specialize (IH p1).
  destruct (resolve winning bs p1) as [[vs|e] p2]; simpl in *; congruence.
Qed.

(** Every round that returns takes one off the rounds of a player that is
    playing. *)
Lemma cycle_rounds `{!Budgeted St} p t v p' t' r :
  playing p = true -> rounds (base p) = Some r ->
  Game_cycle (p, t) = (Ok v, (p', t')) ->
  rounds (base p') = Some (r - 1) /\ r > 0.
Proof.
  intros Hplay Hr. rewrite Game_cycle_unfold, Hplay.
  pose proof (place_bets_rounds (p, t)) as Hplace.
  destruct (place_bets (p, t)) as [[[]|e] [p1 t1]]; [|discriminate].
  simpl in Hplace.
  destruct (Wheel_next (wheel t1)) as [[winning|e] w']; [|discriminate].
  pose proof (resolve_rounds winning (bets t1) (winners winning p1)) as Hres.
  destruct (resolve winning (bets t1) (winners winning p1)) as [[vs|e] p3];
    [|discriminate].
  intros [= _ <- _]. simpl in Hres.
  rewrite playing_base in Hplay.
  apply Player_playing_true in Hplay as (r0 & s0 & Hr0 & _ & Hpos & _).
  assert (r0 = r) as -> by congruence.
  split; [|exact Hpos].
  rewrite Hres, winners_rounds. unfold Player_winners.
  rewrite Hplace, Hr. rewrite bool_decide_eq_true_2 by lia. reflexivity.
Qed.

(** The loop of a session ends within as many rounds as the player has
    left, by [playing()] turning false or by an exception. *)
Lemma session_loop_ends `{!Budgeted St} fuel stakes d s r :
  rounds (base (fst s)) = Some r -> (Z.to_nat r <= fuel)%nat ->
  exists res s', session_loop fuel stakes d s = Some (res, s') /\
    forall stakes' d', res = Ok (stakes', d') ->
      d <= d' <= d + Z.max 0 r /\ exists rest, stakes' = stakes ++ rest.
Proof.
  revert stakes d s r.
  induction fuel as [|fuel IH]; intros stakes d [p t] r Hr Hfuel; simpl in *.
  - destruct (playing p) eqn:Hplay.
    + rewrite playing_base in Hplay.
      apply Player_playing_true in Hplay as (r0 & _ & Hr0 & _ & Hpos & _).
      assert (r0 = r) as -> by congruence. lia.
    + eexists _, _. split; [reflexivity|]. intros ? ? [= <- <-].
      split; [lia|]. exists []. symmetry. apply app_nil_r.
  - destruct (playing p) eqn:Hplay.
    + destruct (Game_cycle (p, t)) as [[v|e] [p1 t1]] eqn:Hc.
      * destruct (cycle_rounds _ _ _ _ _ _ Hplay Hr Hc) as [Hr1 Hpos].
        destruct (IH (stakes ++ [stake (base p1)]) (d + 1) (p1, t1) (r - 1)
                    Hr1 ltac:(lia)) as (res & s' & Hloop & Hres).
        exists res, s'. split; [exact Hloop|].
        intros stakes' d' Hok. destruct (Hres _ _ Hok) as [Hd [rest ->]].
        split; [lia|]. exists (stake (base p1) :: rest).
        rewrite <- app_assoc. reflexivity.
      * eexists _, _. split; [reflexivity|]. discriminate.
    + eexists _, _. split; [reflexivity|]. intros ? ? [= <- <-].
      split; [lia|]. exists []. symmetry. apply app_nil_r.
Qed.

Lemma session_ends `{!Budgeted St} fuel (sim : Simulator G P) :
  (Z.to_nat (init_duration sim) <= fuel)%nat ->
  exists res sim', Simulator_session fuel sim = Some (res, sim') /\
    forall stakes, res = Ok stakes ->
      exists d m,
        durations sim' = durations sim ++ [d] /\
        0 <= d <= Z.max 0 (init_duration sim) /\
        maxima sim' = maxima sim ++ [Some m] /\
        init_stake sim <= m.
Proof.
  intros Hfuel. unfold Simulator_session.
  set (p0 := set_stake _ (set_rounds _ _)).
  assert (rounds (base p0) = Some (init_duration sim)) as Hr
    by (unfold p0, set_stake, set_rounds; rewrite !base_set_base; reflexivity).
  assert (stake (base p0) = Some (init_stake sim)) as Hs
    by (unfold p0, set_stake; rewrite base_set_base; reflexivity).
  destruct (session_loop_ends fuel [stake (base p0)] 0 (p0, table (game sim))
              _ Hr Hfuel) as (res & [p' t'] & Hloop & Hres).
  rewrite Hloop. destruct res as [[stakes d]|e].
  - destruct (Hres _ _ eq_refl) as [Hd [rest ->]]. rewrite Hs. simpl app.
    destruct (py_max (Some (init_stake sim) :: rest)) as [m|e] eqn:Hmax.
    + eexists _, _. split; [reflexivity|]. intros ? _.
      apply py_max_first in Hmax as (z & -> & Hz).
      exists d, z. simpl. repeat split; try reflexivity; lia.
    + eexists _, _. split; [reflexivity|]. discriminate.
  - eexists _, _. split; [reflexivity|]. discriminate.
Qed.

Lemma session_loop_safe I fuel stakes d s res s' :
  safe_rounds I -> I s ->
  (forall s, I s -> is_Some (stake (base (fst s)))) ->
  Forall is_Some stakes ->
  session_loop fuel stakes d s = Some (res, s') ->
  I s' /\ exists stakes' d',
    res = Ok (stakes', d') /\ Forall is_Some stakes'.
Proof.
  intros Hsafe HI Hnum. revert stakes d s HI.
  induction fuel as [|fuel IH]; intros stakes d s HI Hall; simpl;
    destruct (playing (fst s)); try discriminate;
    try (intros [= <- <-]; split; [exact HI | eauto]).
  destruct (Hsafe s HI) as (v & s1 & -> & HI1).
  apply IH; [exact HI1|].
  apply Forall_app. split; [exact Hall|].
  apply Forall_singleton, Hnum, HI1.
Qed.

(** A player that is always playing, and whose rounds never raise, never
    leaves the loop. *)
Lemma session_loop_forever I fuel stakes d s :
  safe_rounds I -> I s -> (forall p, playing p = true) ->
  session_loop fuel stakes d s = None.
Proof.
  intros Hsafe HI Hplay. revert stakes d s HI.
  induction fuel as [|fuel IH]; intros stakes d s HI; simpl;
    rewrite Hplay; [reflexivity|].
  destruct (Hsafe s HI) as (v & s1 & -> & HI1). apply IH, HI1.
Qed.
End SessionFacts.

(** ** Rounds of the strategies on a built wheel *)

Lemma base_resolution (b : Bet) (winning : Bin) :
  plain (outcome b) ->
  exists v, (if wins b winning then Player_win b else Player_lose b) = Ok v.
Proof.
  unfold wins, Player_win, Player_lose, Bet_win_amount, is_prison, plain.
  destruct (outcome b) as [o|]; simpl.
  - intros ->. destruct (Bin_contains o winning); eauto.
  - eauto.
Qed.

Lemma Martingale_win_unfold (m : Martingale) (b : Bet) (s : Z) :
  stake (m_player m) = Some s ->
  Martingale_win b m
  = (Player_win b,
     mkMartingale (mkPlayer (Some (s + amount b)) (rounds (m_player m)))
       0 (black m)).
Proof.
  intros Hs. unfold Martingale_win, mbind, eff_bind, modify, get, lift_result.
  simpl. rewrite Hs. reflexivity.
Qed.

Lemma Martingale_lose_unfold (m : Martingale) (b : Bet) :
  Martingale_lose b m
  = (Player_lose b,
     mkMartingale (m_player m) (multiplier m + 1) (black m)).
Proof. reflexivity. Qed.

Lemma Player_winners_stake (p : Player) :
  stake (Player_winners p) = stake p.
Proof.
  unfold Player_winners. destruct (rounds p); [|reflexivity].
  case_bool_decide; reflexivity.
Qed.

Section ReadyRounds.
Context `{RandomSource G}.

(** The one bet of a Martingale player, resolved. *)
Lemma Martingale_resolve_one (winning : Bin) (b : Bet) (m : Martingale) :
  plain (outcome b) -> is_Some (stake (m_player m)) ->
  exists v m',
    resolve (G:=G) winning [b] m = (Ok [v], m') /\
    black m' = black m /\ is_Some (stake (m_player m')).
Proof.
  intros Hplain [s Hs]. simpl. unfold mbind, eff_bind, mret, eff_ret.
  destruct (base_resolution b winning Hplain) as [v Hv].
  destruct (wins b winning).
  - rewrite (Martingale_win_unfold m b s Hs), Hv. eexists _, _.
    split; [reflexivity|]. simpl. eauto.
  - rewrite Martingale_lose_unfold, Hv. eexists _, _.
    split; [reflexivity|]. simpl. eauto.
Qed.

(** The bet of a Passenger57 player, resolved by the methods of the base
    class: the player is as before. *)
Lemma Passenger57_resolve_one (winning : Bin) (b : Bet) (p : Passenger57) :
  plain (outcome b) ->
  exists v, resolve (G:=G) winning [b] p = (Ok [v], p).
Proof.
  intros Hplain. simpl.
  unfold mbind, eff_bind, mret, eff_ret, lift_result.
  destruct (base_resolution b winning Hplain) as [v Hv].
  exists v. destruct (wins b winning); rewrite Hv; reflexivity.
Qed.

Lemma Martingale_rounds_safe : safe_rounds (P:=Martingale) Martingale_ready.
Proof.
  intros [m t] ((Hempty & Hlen & Hblack) & Hplain & [s Hs]). simpl in *.
  rewrite Game_cycle_unfold. simpl playing. simpl place_bets.
  destruct (Player_playing (m_player m)).
  - rewrite (Martingale_place_bets_unfold m t s Hs). rewrite Hempty.
    pose proof (Martingale_amount_le_limit (multiplier m) (limit t) s).
    rewrite bool_decide_eq_false_2 by (simpl; lia).
    destruct (Wheel_next_ok (wheel t) Hlen) as (bn & g & Hnext).
    simpl wheel. rewrite Hnext. simpl bets.
    set (b := mkBet _ _). set (m1 := winners bn _).
    destruct (Martingale_resolve_one bn b m1) as (v & m' & Hres & Hb' & Hs');
      [exact Hplain | simpl; rewrite Player_winners_stake; simpl; eauto |].
    rewrite Hempty. simpl app. rewrite Hres.
    eexists _, _. split; [reflexivity|].
    repeat split; simpl; try assumption. rewrite Hb'. exact Hplain.
  - destruct (Wheel_next_ok (wheel t) Hlen) as (bn & g & Hnext).
    rewrite Hnext, Hempty. simpl.
    eexists _, _. split; [reflexivity|].
    repeat split; simpl; try assumption.
    rewrite Player_winners_stake. eauto.
Qed.

Lemma Passenger57_rounds_safe : safe_rounds (P:=Passenger57) Passenger57_ready.
Proof.
  intros [p t] ((Hempty & Hlen & Hblack) & Hplain & Hlim). simpl in *.
  rewrite Game_cycle_unfold. simpl playing. unfold Passenger57_playing.
  simpl place_bets.
  unfold Passenger57_place_bets, mbind, eff_bind, get, on_snd. simpl.
  rewrite Table_place_bet_unfold, Hempty. simpl.
  rewrite bool_decide_eq_false_2 by lia.
  destruct (Wheel_next_ok (wheel t) Hlen) as (bn & g & Hnext).
  rewrite Hnext, Hempty. simpl app.
  destruct (Passenger57_resolve_one bn (mkBet 10 (p57_black p))
              (mkPassenger57 (Player_winners (p57_player p)) (p57_black p))
              Hplain) as [v ->].
  eexists _, _. split; [reflexivity|].
  repeat split; simpl; assumption.
Qed.
End ReadyRounds.

(** ** Martingale and SevenReds keep the round budget *)

Lemma Martingale_place_bets_rounds {G} (s : Martingale * Table G) :
  rounds (m_player (fst (snd (Martingale_place_bets s))))
  = rounds (m_player (fst s)).
Proof.
  destruct s as [m t]. destruct (stake (m_player m)) as [st|] eqn:Hs.
  - rewrite (Martingale_place_bets_unfold m t st Hs). reflexivity.
  - unfold Martingale_place_bets, mbind, eff_bind, get, raise. simpl.
    rewrite Hs. reflexivity.
Qed.

Lemma Martingale_win_rounds b m :
  rounds (m_player (snd (Martingale_win b m))) = rounds (m_player m).
Proof.
  destruct (stake (m_player m)) as [st|] eqn:Hs.
  - rewrite (Martingale_win_unfold m b st Hs). reflexivity.
  - unfold Martingale_win, mbind, eff_bind, modify, get, raise. simpl.
    rewrite Hs. reflexivity.
Qed.

Instance Martingale_budgeted {G} : Budgeted (Martingale_strategy (G:=G)).
Proof.
  split; simpl; try reflexivity.
  - apply Martingale_place_bets_rounds.
  - apply Martingale_win_rounds.
Qed.

Instance SevenReds_budgeted {G} : Budgeted (SevenReds_strategy (G:=G)).
Proof.
  split; simpl; try reflexivity.
  - intros w p. unfold SevenReds_winners. destruct (wins _ w); reflexivity.
  - intros [p t]. unfold SevenReds_place_bets, mbind, eff_bind, get. simpl.
    case_bool_decide; [|reflexivity]. unfold with_martingale.
    pose proof (Martingale_place_bets_rounds (sr_martingale p, t)) as Hr.
    destruct (Martingale_place_bets (sr_martingale p, t)) as [r [m' t']].
    exact Hr.
  - intros b p. unfold SevenReds_lift.
    pose proof (Martingale_win_rounds b (sr_martingale p)) as Hr.
    destruct (Martingale_win b (sr_martingale p)) as [r m']. exact Hr.
Qed.

(** ** Sessions of a Martingale player on a built wheel *)

Lemma american_black : american_outcomes !! "black" = Some black_outcome.
Proof. vm_compute. reflexivity. Qed.

Lemma european_black : european_outcomes !! "black" = Some black_outcome.
Proof. vm_compute. reflexivity. Qed.

Lemma built_table_ready `{RandomSource G} (fresh : G) seed rules lim w :
  Wheel_init fresh seed rules = Ok w -> table_ready (Table_init lim w).
Proof.
  rewrite Wheel_init_built. intros [= <-]. unfold table_ready. simpl.
  split; [reflexivity|]. split; [apply bins_for_length|].
  unfold Wheel_get_outcome, outcomes_for. simpl.
  case_bool_decide; [rewrite american_black; reflexivity|].
  case_bool_decide; [rewrite european_black; reflexivity|].
  rewrite lookup_empty. exact I.
Qed.

Section MartingaleSessions.
Context `{RandomSource G}.

Lemma Martingale_session fuel (sim : Simulator G Martingale) :
  table_ready (table (game sim)) ->
  (Z.to_nat (init_duration sim) <= fuel)%nat ->
  exists stakes sim' d m,
    Simulator_session fuel sim = Some (Ok stakes, sim') /\
    durations sim' = durations sim ++ [d] /\
    0 <= d <= Z.max 0 (init_duration sim) /\
    maxima sim' = maxima sim ++ [Some m] /\
    init_stake sim <= m /\
    table_ready (table (game sim')) /\ same_setup sim sim'.
Proof.
  intros Hready Hfuel. unfold Simulator_session.
  set (t := table (game sim)) in *.
  set (p0 := set_stake _ (set_rounds _ _)).
  assert (Martingale_ready (p0, t)) as Hp0.
  { split; [exact Hready|]. split; [|simpl; eauto].
    destruct Hready as (_ & _ & Hblack). exact Hblack. }
  assert (rounds (base (G:=G) (fst (p0, t))) = Some (init_duration sim)) as Hr
    by reflexivity.
  destruct (session_loop_ends fuel [stake (base (G:=G) p0)] 0 (p0, t)
              (init_duration sim) Hr Hfuel)
    as (res & [p' t'] & Hloop & Hres).
  destruct (session_loop_safe Martingale_ready fuel [stake (base (G:=G) p0)] 0
              (p0, t) res (p', t') Martingale_rounds_safe Hp0)
    as (Hready' & stakes & d & -> & Hnum); [| |exact Hloop|].
  { intros s (_ & _ & Hs). exact Hs. }
  { apply Forall_singleton. simpl. eauto. }
  destruct (Hres _ _ eq_refl) as [Hd [rest ->]].
  rewrite Hloop.
  destruct (py_max_numbers ([stake (base (G:=G) p0)] ++ rest)) as [m Hmax];
    [discriminate | exact Hnum |].
  rewrite Hmax. apply py_max_first in Hmax as (z & -> & Hz).
  eexists _, _, d, z. split; [reflexivity|]. simpl.
  repeat split; try reflexivity; try lia; apply Hready'.
Qed.

Lemma Martingale_gather_loop fuel n (sim : Simulator G Martingale) :
  table_ready (table (game sim)) ->
  (Z.to_nat (init_duration sim) <= fuel)%nat ->
  exists sim' ds ms,
    gather_loop fuel n sim = Some (Ok tt, sim') /\
    durations sim' = durations sim ++ ds /\ length ds = n /\
    Forall (fun d => 0 <= d <= Z.max 0 (init_duration sim)) ds /\
    maxima sim' = maxima sim ++ ms /\ length ms = n /\
    Forall (fun m => exists z, m = Some z /\ init_stake sim <= z) ms.
Proof.
  revert sim. induction n as [|n IH]; intros sim Hready Hfuel; simpl.
  - exists sim, [], []. rewrite !app_nil_r. repeat split; constructor.
  - destruct (Martingale_session fuel sim Hready Hfuel)
      as (stakes & sim1 & d & m & -> & Hd1 & Hd & Hm1 & Hm & Hready1 & Hdur & Hstk).
    destruct (IH sim1 Hready1 ltac:(rewrite Hdur; exact Hfuel))
      as (sim' & ds & ms & -> & Hds & Hlen & Hall & Hms & Hlenm & Hallm).
    exists sim', (d :: ds), (Some m :: ms).
    split; [reflexivity|]. rewrite Hds, Hd1, Hms, Hm1, <- !app_assoc. simpl.
    rewrite Hdur, Hstk in *.
    repeat split; try reflexivity; try lia; constructor; eauto.
Qed.
End MartingaleSessions.

(** ** Sessions end, unless the player is always playing *)

Lemma Passenger57_session_forever `{RandomSource G} fuel
    (sim : Simulator G Passenger57) :
  table_ready (table (game sim)) -> 10 <= limit (table (game sim)) ->
  Simulator_session fuel sim = None.
Proof.
  intros Hready Hlim. unfold Simulator_session.
  rewrite (session_loop_forever Passenger57_ready); try reflexivity.
  - apply Passenger57_rounds_safe.
  - split; [exact Hready|]. split; [|exact Hlim].
    destruct Hready as (_ & _ & Hblack). exact Hblack.
Qed.

(** C1, as the code has it: for a strategy that keeps [Player.playing] and
    the round count of the base class (Martingale and SevenReds do), a
    session ends within [init_duration] rounds, by [playing()] turning false
    or by the exception of a round; when it returns, one duration in
    0..init_duration and one maximum of at least [init_stake] have been
    recorded.  In particular [gather] with the default setup (50 samples,
    250 rounds, stake 100) on a Martingale player and a built wheel ends and
    records 50 durations, each in 0..250, and 50 maxima, each at least 100.
    A session of Passenger57, whose [playing()] is always true, does not end
    on a table that admits its bet of 10. *)
Theorem budgeted_sessions_end :
  (forall G, Budgeted (Martingale_strategy (G:=G))) /\
  (forall G, Budgeted (SevenReds_strategy (G:=G))) /\
  (forall G P (RS : RandomSource G) (St : Strategy G P),
      Budgeted St ->
      forall fuel (sim : Simulator G P),
        (Z.to_nat (init_duration sim) <= fuel)%nat ->
        exists res sim', Simulator_session fuel sim = Some (res, sim') /\
          forall stakes, res = Ok stakes ->
            exists d m,
              durations sim' = durations sim ++ [d] /\
              0 <= d <= Z.max 0 (init_duration sim) /\
              maxima sim' = maxima sim ++ [Some m] /\
              init_stake sim <= m) /\
  (forall G (RS : RandomSource G) (fresh : G) seed rules lim w,
      Wheel_init fresh seed rules = Ok w ->
      exists sim',
        Simulator_gather 250
          (Simulator_init (mkGame (Table_init lim w))
             (Martingale_init (Table_init lim w)))
          = Some (Ok tt, sim') /\
        length (durations sim') = 50%nat /\
        Forall (fun d => 0 <= d <= 250) (durations sim') /\
        length (maxima sim') = 50%nat /\
        Forall (fun m => exists z, m = Some z /\ 100 <= z) (maxima sim')) /\
  (forall G (RS : RandomSource G) fuel (sim : Simulator G Passenger57),
      table_ready (table (game sim)) -> 10 <= limit (table (game sim)) ->
      Simulator_session fuel sim = None).
Proof.
  split; [intros G; apply Martingale_budgeted|].
  split; [intros G; apply SevenReds_budgeted|].
  split; [|split].
  - intros G P RS St HB fuel sim Hfuel. apply session_ends. exact Hfuel.
  - intros G RS fresh seed rules lim w Hw.
    pose proof (built_table_ready fresh seed rules lim w Hw) as Hready.
    destruct (Martingale_gather_loop 250 50
                (Simulator_init (mkGame (Table_init lim w))
                   (Martingale_init (Table_init lim w))) Hready)
      as (sim' & ds & ms & Hg & Hds & Hlen & Hall & Hms & Hlenm & Hallm).
    { simpl. lia. }
    exists sim'. split; [exact Hg|]. rewrite Hds, Hms. simpl.
    repeat split; assumption.
  - intros G RS fuel sim. apply Passenger57_session_forever.
Qed.

Lemma budgeted_sessions_end_witness :
  (Z.to_nat (init_duration martingale_sim) <= 250)%nat /\
  exists res sim', Simulator_session 250 martingale_sim = Some (res, sim') /\
    forall stakes, res = Ok stakes ->
      exists d m,
        durations sim' = durations martingale_sim ++ [d] /\
        0 <= d <= Z.max 0 (init_duration martingale_sim) /\
        maxima sim' = maxima martingale_sim ++ [Some m] /\
        init_stake martingale_sim <= m.
Proof.
  assert (Z.to_nat (init_duration martingale_sim) <= 250)%nat as Hfuel
    by (simpl; lia).
  split; [exact Hfuel|].
  exact (proj1 (proj2 (proj2 budgeted_sessions_end)) (list Z) Martingale _ _
           Martingale_budgeted 250%nat martingale_sim Hfuel).
Defined.

(** C1 as stated fails for Passenger57: [playing()] is always true and its
    bet of 10 fits the table, so no number of rounds ends a session, and
    [gather] records nothing. *)
Lemma Passenger57_session_never_ends :
  (forall fuel, Simulator_session fuel passenger57_sim = None) /\
  (forall fuel, Simulator_gather fuel passenger57_sim = None).
Proof.
  assert (forall fuel, Simulator_session fuel passenger57_sim = None) as Hs.
  { intros fuel. apply Passenger57_session_forever.
    - apply (built_table_ready [] None "american"), sample_wheel_init.
    - simpl. lia. }
  split; [exact Hs|].
  intros fuel. unfold Simulator_gather. simpl. rewrite Hs. reflexivity.
Qed.

(** ** What happens to the values of [win] and [lose] *)

Instance Passenger57_neutral {G} : StakeNeutral (Passenger57_strategy (G:=G)).
Proof.
  split; simpl; try reflexivity.
  - intros [p t]. unfold Passenger57_place_bets, mbind, eff_bind, get, on_snd.
    simpl. destruct (Table_place_bet _ t). reflexivity.
  - intros _ p. apply Player_winners_stake.
Qed.

Section Payouts.
Context `{RandomSource G} `{St : Strategy G P}.

Lemma resolve_with_payouts f winning bs p :
  resolve (H0:=with_payouts St f) winning bs p
  = (rmap (map f) (fst (resolve winning bs p)), snd (resolve winning bs p)).
Proof.
  revert p. induction bs as [|b bs IH]; intros p; simpl; [reflexivity|].
  unfold mbind, eff_bind.
  destruct (wins b winning); simpl.
  - destruct (win b p) as [[v|e] p1]; simpl; [|reflexivity].
    rewrite IH. destruct (resolve winning bs p1) as [[vs|e] p2]; reflexivity.
  - destruct (lose b p) as [[v|e] p1]; simpl; [|reflexivity].
    rewrite IH. destruct (resolve winning bs p1) as [[vs|e] p2]; reflexivity.
Qed.

(** A round does to the player and the table what it does with the other
    values, and raises when it raises with them. *)
Lemma cycle_with_payouts f s :
  rmap (fun _ => tt) (fst (Game_cycle (H0:=with_payouts St f) s))
  = rmap (fun _ => tt) (fst (Game_cycle s)) /\
  snd (Game_cycle (H0:=with_payouts St f) s) = snd (Game_cycle s).
Proof.
  destruct s as [p t]. rewrite !Game_cycle_unfold. simpl playing.
  simpl place_bets. simpl winners.
  destruct (if playing p then place_bets (p, t) else (Ok tt, (p, t)))
    as [[[]|e] [p1 t1]]; [|split; reflexivity].
  destruct (Wheel_next (wheel t1)) as [[winning|e] w']; [|split; reflexivity].
  rewrite resolve_with_payouts.
  destruct (resolve winning (bets t1) (winners winning p1)) as [[vs|e] p3];
    split; reflexivity.
Qed.

Lemma session_loop_with_payouts f fuel stakes d s :
  session_loop (H0:=with_payouts St f) fuel stakes d s
  = session_loop fuel stakes d s.
Proof.
  revert stakes d s. induction fuel as [|fuel IH]; intros stakes d s; simpl;
    [reflexivity|].
  destruct (playing (fst s)); [|reflexivity].
  destruct (cycle_with_payouts f s) as [Hr Hs].
  destruct (Game_cycle (H0:=with_payouts St f) s) as [[v1|e1] s1],
           (Game_cycle s) as [[v2|e2] s2]; simpl in *; subst;
    try discriminate.
  - apply IH.
  - congruence.
Qed.

Lemma resolve_stake `{!StakeNeutral St} winning bs p :
  stake (base (snd (resolve winning bs p))) = stake (base p).
Proof.
  revert p. induction bs as [|b bs IH]; intros p; simpl; [reflexivity|].
  unfold mbind, eff_bind.
  assert (stake (base (snd ((if wins b winning then win b else lose b) p)))
          = stake (base p)) as Hb
    by (destruct (wins b winning); [apply win_stake | apply lose_stake]).
  destruct ((if wins b winning then win b else lose b) p) as [[v|e] p1];
    simpl in *; [|exact Hb].
  specialize (IH p1).
  destruct (resolve winning bs p1) as [[vs|e] p2]; simpl in *; congruence.
Qed.

Lemma cycle_stake `{!StakeNeutral St} s :
  stake (base (fst (snd (Game_cycle s)))) = stake (base (fst s)).
Proof.
  destruct s as [p t]. rewrite Game_cycle_unfold.
  assert (stake (base (fst (snd (if playing p then place_bets (p, t)
                                 else (Ok tt, (p, t))))))
          = stake (base p)) as Hplace
    by (destruct (playing p); [apply (place_bets_stake (p, t)) | reflexivity]).
  destruct (if playing p then place_bets (p, t) else (Ok tt, (p, t)))
    as [[[]|e] [p1 t1]]; simpl in Hplace; [|exact Hplace].
  destruct (Wheel_next (wheel t1)) as [[winning|e] w']; [|exact Hplace].
  pose proof (resolve_stake winning (bets t1) (winners winning p1)) as Hres.
  rewrite winners_stake in Hres.
  destruct (resolve winning (bets t1) (winners winning p1)) as [[vs|e] p3];
    simpl in *; congruence.
Qed.
End Payouts.

(** C10: a session is the same whatever values [win] and [lose] return, so
    the sums that [Game.cycle] computes are not used; [win] and [lose] of the
    base class leave the player as it is; and when no method of the strategy
    changes the stake, a round leaves the stake as it was: neither the game
    nor the simulator pays anything into it. *)
Theorem payouts_never_reach_the_stake :
  (forall G P (RS : RandomSource G) (St : Strategy G P) f fuel
          (sim : Simulator G P),
      Simulator_session (H0:=with_payouts St f) fuel sim
      = Simulator_session (H0:=St) fuel sim) /\
  (forall G (b : Bet) (p : Passenger57),
      snd (win (G:=G) b p) = p /\ snd (lose (G:=G) b p) = p) /\
  (forall G P (RS : RandomSource G) (St : Strategy G P),
      StakeNeutral St ->
      forall s, stake (base (fst (snd (Game_cycle s)))) = stake (base (fst s))).
Proof.
  split; [|split].
  - intros G P RS St f fuel sim. unfold Simulator_session.
    rewrite session_loop_with_payouts. reflexivity.
  - intros G b p. split; reflexivity.
  - intros G P RS St HN s. apply cycle_stake.
Qed.

Lemma payouts_never_reach_the_stake_witness :
  stake (base (G:=list Z) (fst (snd (Game_cycle
           (Passenger57_init (Table_init 1000 sample_wheel),
            Table_init 1000 sample_wheel)))))
  = stake (base (G:=list Z)
             (Passenger57_init (Table_init 1000 sample_wheel))).
Proof.
  exact (proj2 (proj2 payouts_never_reach_the_stake) (list Z) Passenger57 _ _
           Passenger57_neutral
           (Passenger57_init (Table_init 1000 sample_wheel),
            Table_init 1000 sample_wheel)).
Defined.


(** * Further properties *)

(** ** Outcome *)

(** X1: [a != b] on Outcomes is -2 when the names are equal and -1 when they
    differ, so it is never false: [!=] does not tell equal Outcomes from
    different ones. *)
Theorem Outcome_ne_never_false (a b : Outcome) :
  Outcome_ne a b = (if bool_decide (name a = name b) then -2 else -1) /\
  py_truth (Outcome_ne a b) = true.
Proof.
  unfold Outcome_ne, Outcome_eq. case_bool_decide; split; reflexivity.
Qed.

(** ** Wheel.add_outcome and Wheel.get_outcome *)

Lemma Wheel_add_outcome_unfold {G} (i : nat) (o : Outcome) (w : Wheel G) b :
  bins w !! i = Some b ->
  Wheel_add_outcome i o w
  = Ok (mkWheel (<[ i := b ∪ {[ name o := o ]} ]> (bins w)) (rng w)
          (if Bin_contains o (all_outcomes w) then all_outcomes w
           else <[ name o := o ]> (all_outcomes w))).
Proof.
  intros Hb. unfold Wheel_add_outcome. rewrite Hb. unfold Bin_of. simpl.
  rewrite (left_id_L ∅ (∪)). reflexivity.
Qed.



(** X3: after [add_outcome] the wheel finds an Outcome under the name, and it
    is the one that was registered first: the Outcome just added when the
    name was new, the earlier one otherwise, whatever the odds or the class
    of the new one.  Other names are found as before. *)
Theorem Wheel_add_then_get_outcome {G} (i : nat) (o : Outcome) (w w' : Wheel G) :
  Wheel_add_outcome i o w = Ok w' ->
  Wheel_get_outcome (name o) w'
    = Some (default o (Wheel_get_outcome (name o) w)) /\
  (forall n, n ≠ name o -> Wheel_get_outcome n w' = Wheel_get_outcome n w).
Proof.
  unfold Wheel_add_outcome, Wheel_get_outcome, Bin_contains.
  destruct (bins w !! i) as [b|]; [|discriminate]. intros [= <-]. simpl.
  case_bool_decide as Hreg.
  - destruct Hreg as [o0 Ho0]. rewrite Ho0. split; [reflexivity|]. reflexivity.
  - assert (all_outcomes w !! name o = None) as Hnone.
    { destruct (all_outcomes w !! name o) eqn:E; [|reflexivity].
      exfalso. apply Hreg. eauto. }
    rewrite Hnone, lookup_insert_eq. split; [reflexivity|].
    intros n Hn. apply lookup_insert_ne. congruence.
Qed.

Lemma Wheel_add_then_get_outcome_witness :
  exists w',
    Wheel_add_outcome 0 renamed_black sample_wheel = Ok w' /\
    Wheel_get_outcome "black" w' = Some black_outcome.
Proof.
  assert (ended (bins sample_wheel !! 0%nat) = true) as Hb
    by (vm_compute; reflexivity).
  destruct (bins sample_wheel !! 0%nat) as [b|] eqn:Eb; [|discriminate Hb].
  eexists. split; [apply (Wheel_add_outcome_unfold 0 renamed_black _ b Eb)|].
  pose proof (proj1 (Wheel_add_then_get_outcome 0 renamed_black sample_wheel _
                       (Wheel_add_outcome_unfold 0 renamed_black _ b Eb)))
    as Hget.
  refine (eq_trans Hget _).
  unfold Wheel_get_outcome. simpl all_outcomes. simpl name.
  rewrite american_black. reflexivity.
Defined.

Lemma union_singleton_twice (b : Bin) n (o : Outcome) :
  b ∪ {[ n := o ]} ∪ {[ n := o ]} = b ∪ {[ n := o ]}.
Proof.
  apply map_eq. intros k. rewrite !lookup_union.
  destruct (b !! k), (({[ n := o ]} : Bin) !! k); reflexivity.
Qed.

(** X4: adding the same Outcome to the same bin a second time changes
    nothing. *)
Theorem Wheel_add_outcome_twice {G} (i : nat) (o : Outcome) (w w' : Wheel G) :
  Wheel_add_outcome i o w = Ok w' -> Wheel_add_outcome i o w' = Ok w'.
Proof.
  intros Hadd. destruct (bins w !! i) as [b|] eqn:Hb.
  - rewrite (Wheel_add_outcome_unfold i o w b Hb) in Hadd.
    injection Hadd as <-.
    assert (i < length (bins w))%nat as Hi by (eapply lookup_lt_Some; eauto).
    erewrite Wheel_add_outcome_unfold
      by (simpl; apply list_lookup_insert_eq; exact Hi).
    simpl. rewrite list_insert_insert_eq, union_singleton_twice.
    f_equal. f_equal. unfold Bin_contains.
    destruct (bool_decide (is_Some (all_outcomes w !! name o))) eqn:Hreg.
    + rewrite Hreg. reflexivity.
    + rewrite bool_decide_eq_true_2; [reflexivity|].
      rewrite lookup_insert_eq. eauto.
  - unfold Wheel_add_outcome in Hadd. rewrite Hb in Hadd. discriminate.
Qed.

Lemma Wheel_add_outcome_twice_witness :
  exists w',
    Wheel_add_outcome 0 renamed_black sample_wheel = Ok w' /\
    Wheel_add_outcome 0 renamed_black w' = Ok w'.
Proof.
  assert (ended (bins sample_wheel !! 0%nat) = true) as Hb
    by (vm_compute; reflexivity).
  destruct (bins sample_wheel !! 0%nat) as [b|] eqn:Eb; [|discriminate Hb].
  eexists. split; [apply (Wheel_add_outcome_unfold 0 renamed_black _ b Eb)|].
  exact (Wheel_add_outcome_twice 0 renamed_black sample_wheel _
           (Wheel_add_outcome_unfold 0 renamed_black _ b Eb)).
Defined.




(** ** The registry of the built wheels *)

Lemma members_registered_lookup all (b : Bin) n o :
  members_registered all b = true -> b !! n = Some o -> all !! n = Some o.
Proof.
  unfold members_registered. rewrite forallb_forall. intros Hall Hn.
  specialize (Hall (n, o)). simpl in Hall.
  apply bool_decide_eq_true in Hall; [exact Hall|].
  apply list_elem_of_In, elem_of_map_to_list. exact Hn.
Qed.

Lemma registered_held_lookup (bs : list Bin) (all : gmap string Outcome) n :
  registered_held bs all = true -> is_Some (all !! n) ->
  exists i b, bs !! i = Some b /\ is_Some (b !! n).
Proof.
  unfold registered_held. rewrite forallb_forall. intros Hall [o Ho].
  specialize (Hall (n, o)). simpl in Hall.
  assert (existsb (Bin_has n) bs = true) as Hex.
  { apply Hall, list_elem_of_In, elem_of_map_to_list. exact Ho. }
  apply existsb_exists in Hex as (b & Hb & Hn).
  apply list_elem_of_In, list_elem_of_lookup in Hb as [i Hi].
  exists i, b. split; [exact Hi|].
  unfold Bin_has in Hn. apply bool_decide_eq_true in Hn. exact Hn.
Qed.

Lemma american_registry :
  forallb (members_registered american_outcomes) american_bins = true /\
  registered_held american_bins american_outcomes = true.
Proof. split; vm_compute; reflexivity. Qed.

Lemma european_registry :
  forallb (members_registered european_outcomes) european_bins = true /\
  registered_held european_bins european_outcomes = true.
Proof. split; vm_compute; reflexivity. Qed.

Lemma built_registry rules :
  forallb (members_registered (outcomes_for rules)) (bins_for rules) = true /\
  registered_held (bins_for rules) (outcomes_for rules) = true.
Proof.
  unfold bins_for, outcomes_for.
  case_bool_decide; [apply american_registry|].
  case_bool_decide; [apply european_registry|].
  split; vm_compute; reflexivity.
Qed.

(** X6: in every wheel that [Wheel.__init__] builds, whatever the seed and
    the rules, the registered names are exactly those that some bin holds,
    and [get_outcome] returns for the name of a member of a bin that very
    member, with its odds and its class. *)
Theorem built_wheel_registry `{RandomSource G} (fresh : G) seed rules w :
  Wheel_init fresh seed rules = Ok w ->
  registry_matches_bins w /\
  (forall i b n o, bins w !! i = Some b -> b !! n = Some o ->
                   Wheel_get_outcome n w = Some o).
Proof.
  rewrite Wheel_init_built. intros [= <-].
  destruct (built_registry rules) as [Hmem Hheld].
  assert (forall i b n o, bins_for rules !! i = Some b -> b !! n = Some o ->
                          outcomes_for rules !! n = Some o) as Hobj.
  { intros i b n o Hb Hn. rewrite forallb_forall in Hmem.
    eapply members_registered_lookup; [|exact Hn].
    apply Hmem, list_elem_of_In, list_elem_of_lookup. eauto. }
  split; [|exact Hobj].
  intros n. cbn [bins all_outcomes]. split.
  - apply registered_held_lookup, Hheld.
  - intros (i & b & Hb & [o Ho]). exists o. eapply Hobj; eassumption.
Qed.

Lemma built_wheel_registry_witness :
  Wheel_init [] None "american" = Ok sample_wheel /\
  registry_matches_bins sample_wheel /\
  (forall i b n o, bins sample_wheel !! i = Some b -> b !! n = Some o ->
                   Wheel_get_outcome n sample_wheel = Some o).
Proof.
  split; [exact sample_wheel_init|].
  exact (built_wheel_registry [] None "american" sample_wheel
           sample_wheel_init).
Defined.

(** ** Wheel.add_bin and Wheel.get *)

Lemma py_index_lt len i k : py_index len i = Some k -> (k < len)%nat.
Proof.
  unfold py_index. repeat case_bool_decide; intros [= <-]; lia.
Qed.

Lemma py_index_None len i :
  py_index len i = None <-> ~ (- Z.of_nat len <= i < Z.of_nat len).
Proof.
  unfold py_index. repeat case_bool_decide; split; try discriminate; try lia.
  reflexivity.
Qed.

(** X7: [add_bin] and [get] raise IndexError exactly for an index outside
    -len..len-1.  After [add_bin(idx, bin)], [get(idx)] returns that bin and
    [get] at every position other than the one [idx] names returns what it
    did; the number of bins is unchanged, and the registry is untouched:
    [add_bin] registers no Outcome. *)
Theorem Wheel_add_bin_then_get {G} (idx : Z) (b : Bin) (w : Wheel G) :
  (~ (- Z.of_nat (length (bins w)) <= idx < Z.of_nat (length (bins w))) ->
     Wheel_add_bin idx b w = Raise IndexError /\
     Wheel_get_at idx w = Raise IndexError) /\
  (- Z.of_nat (length (bins w)) <= idx < Z.of_nat (length (bins w)) ->
     exists w',
       Wheel_add_bin idx b w = Ok w' /\
       Wheel_get_at idx w' = Ok b /\
       length (bins w') = length (bins w) /\
       all_outcomes w' = all_outcomes w /\
       (forall j, py_index (length (bins w)) j
                  ≠ py_index (length (bins w)) idx ->
                  Wheel_get_at j w' = Wheel_get_at j w)).
Proof.
  unfold Wheel_add_bin, Wheel_get_at. split.
  - intros Hout. apply py_index_None in Hout. rewrite Hout. split; reflexivity.
  - intros Hin. destruct (py_index (length (bins w)) idx) as [k|] eqn:Hk.
    2: { apply py_index_None in Hk. contradiction. }
    pose proof (py_index_lt _ _ _ Hk) as Hlt.
    eexists. split; [reflexivity|]. cbn [bins all_outcomes].
    rewrite length_insert, Hk, list_lookup_insert_eq by exact Hlt.
    split; [reflexivity|]. split; [reflexivity|]. split; [reflexivity|].
    intros j Hj. destruct (py_index (length (bins w)) j) as [kj|];
      [|reflexivity].
    rewrite list_lookup_insert_ne by congruence. reflexivity.
Qed.

Lemma Wheel_add_bin_then_get_witness :
  - Z.of_nat (length (bins (empty_wheel (G:=list Z) []))) <= -1
    < Z.of_nat (length (bins (empty_wheel (G:=list Z) []))) /\
  exists w',
    Wheel_add_bin (-1) {[ "black" := black_outcome ]}
      (empty_wheel (G:=list Z) []) = Ok w' /\
    Wheel_get_at (-1) w' = Ok {[ "black" := black_outcome ]} /\
    Wheel_get_outcome "black" w' = None.
Proof.
  assert (- Z.of_nat (length (bins (empty_wheel (G:=list Z) []))) <= -1
          < Z.of_nat (length (bins (empty_wheel (G:=list Z) [])))) as Hin
    by (simpl; lia).
  split; [exact Hin|].
  destruct (proj2 (Wheel_add_bin_then_get (-1) {[ "black" := black_outcome ]}
                     (empty_wheel (G:=list Z) [])) Hin)
    as (w' & Hadd & Hget & _ & Hall & _).
  exists w'. split; [exact Hadd|]. split; [exact Hget|].
  unfold Wheel_get_outcome. rewrite Hall. reflexivity.
Defined.


(** ** The layout of the built wheels *)

Lemma all_below_lt k f i : all_below k f = true -> (i < k)%nat -> f i = true.
Proof.
  unfold all_below. rewrite forallb_forall. intros Hall Hi.
  apply Hall, in_seq. lia.
Qed.

Lemma checked_bins_at check bs i b :
  checked_bins check bs = true -> (i < 38)%nat -> bs !! i = Some b ->
  check i b = true.
Proof.
  intros Hall Hi Hb.
  destruct (checked_bins_lookup check bs i Hall Hi) as (b' & Hb' & Hc).
  congruence.
Qed.

Lemma holds_iff_eq held n k bn :
  holds_iff held n k bn = true ->
  bn !! n = if held then Some (plain_outcome n k) else None.
Proof. unfold holds_iff. apply bool_decide_eq_true. Qed.

Lemma american_layout :
  splits_ok american_bins = true /\ blocks_ok american_bins = true /\
  dozens_columns_ok american_bins = true.
Proof. split; [|split]; vm_compute; reflexivity. Qed.

Lemma european_layout :
  splits_ok european_bins = true /\ blocks_ok european_bins = true /\
  dozens_columns_ok european_bins = true.
Proof. split; [|split]; vm_compute; reflexivity. Qed.

Lemma standard_layout rules :
  standard rules ->
  splits_ok (bins_for rules) = true /\ blocks_ok (bins_for rules) = true /\
  dozens_columns_ok (bins_for rules) = true.
Proof.
  intros [-> | ->].
  - rewrite bins_for_american. apply american_layout.
  - rewrite bins_for_european. apply european_layout.
Qed.

Lemma built_bin_lt `{RandomSource G} (fresh : G) seed rules w i bn :
  Wheel_init fresh seed rules = Ok w -> bins w !! i = Some bn ->
  bins_for rules !! i = Some bn /\ (i < 38)%nat.
Proof.
  rewrite Wheel_init_built. intros [= <-] Hb. simpl in Hb.
  split; [exact Hb|]. apply lookup_lt_Some in Hb.
  rewrite bins_for_length in Hb. exact Hb.
Qed.

(** X8: under both rules, the bin of a number holds the split Outcome "a-b"
    exactly when a and b are neighbours on the layout (b right of a in its
    row, or below a in its column) and the number is a or b; the Outcome pays
    17 to 1.  So the split partners of a number are its neighbours in the
    row and in the column, fewer at the edges, and 0 and 00 have none. *)
Theorem split_bets_are_neighbours `{RandomSource G} (fresh : G) seed rules w
    (i a b : nat) (bn : Bin) :
  Wheel_init fresh seed rules = Ok w -> standard rules ->
  (a < 38)%nat -> (b < 38)%nat -> bins w !! i = Some bn ->
  bn !! dashed [a; b]
  = if split_pair a b && member i [a; b]
    then Some (plain_outcome (dashed [a; b]) 17) else None.
Proof.
  intros Hw Hstd Ha Hb Hbn.
  destruct (built_bin_lt fresh seed rules w i bn Hw Hbn) as [Hbin Hi].
  destruct (standard_layout rules Hstd) as (Hsplit & _ & _).
  unfold splits_ok in Hsplit.
  pose proof (all_below_lt _ _ a Hsplit Ha) as H1.
  pose proof (all_below_lt _ _ b H1 Hb) as H2. cbv zeta in H2.
  apply holds_iff_eq.
  exact (checked_bins_at _ _ i bn H2 Hi Hbin).
Qed.

Lemma split_bets_are_neighbours_witness :
  Wheel_init [] None "american" = Ok sample_wheel /\ standard "american" /\
  forall bn, bins sample_wheel !! 5%nat = Some bn ->
    bn !! "5-8" = Some (plain_outcome "5-8" 17) /\ bn !! "5-7" = None.
Proof.
  assert (standard "american") as Hstd by (left; reflexivity).
  split; [exact sample_wheel_init|]. split; [exact Hstd|].
  intros bn Hbn. split.
  - exact (split_bets_are_neighbours [] None "american" sample_wheel 5 5 8 bn
             sample_wheel_init Hstd ltac:(lia) ltac:(lia) Hbn).
  - exact (split_bets_are_neighbours [] None "american" sample_wheel 5 5 7 bn
             sample_wheel_init Hstd ltac:(lia) ltac:(lia) Hbn).
Defined.

(** X9: under both rules, the street Outcome of the three numbers from n is
    in a bin exactly when n starts a row and the bin is one of the three, at
    11 to 1; the corner Outcome of n, n+1, n+3, n+4 exactly when n is in one
    of the first two columns of the first eleven rows and the bin is one of
    the four, at 8 to 1; the line Outcome of the six numbers from n exactly
    when n starts one of the first eleven rows and the bin is one of the six,
    at 5 to 1. *)
Theorem block_bets_cover_their_numbers `{RandomSource G} (fresh : G) seed rules
    w (i n : nat) (bn : Bin) :
  Wheel_init fresh seed rules = Ok w -> standard rules ->
  (n < 38)%nat -> bins w !! i = Some bn ->
  bn !! dashed (street_of n)
    = (if street_start n && member i (street_of n)
       then Some (plain_outcome (dashed (street_of n)) 11) else None) /\
  bn !! dashed (corner_of n)
    = (if corner_start n && member i (corner_of n)
       then Some (plain_outcome (dashed (corner_of n)) 8) else None) /\
  bn !! dashed (line_of n)
    = (if line_start n && member i (line_of n)
       then Some (plain_outcome (dashed (line_of n)) 5) else None).
Proof.
  intros Hw Hstd Hn Hbn.
  destruct (built_bin_lt fresh seed rules w i bn Hw Hbn) as [Hbin Hi].
  destruct (standard_layout rules Hstd) as (_ & Hblocks & _).
  unfold blocks_ok in Hblocks.
  pose proof (all_below_lt _ _ n Hblocks Hn) as H1.
  pose proof (checked_bins_at _ _ i bn H1 Hi Hbin) as H2.
  apply andb_prop in H2 as [H2 Hline]. apply andb_prop in H2 as [Hstreet Hcorner].
  repeat split; apply holds_iff_eq; assumption.
Qed.

Lemma sample_european_init :
  Wheel_init [] None "european" = Ok sample_european.
Proof.
  rewrite Wheel_init_built, bins_for_european. unfold outcomes_for.
  rewrite bool_decide_eq_false_2 by discriminate.
  rewrite bool_decide_eq_true_2 by reflexivity. reflexivity.
Qed.

Lemma block_bets_cover_their_numbers_witness :
  Wheel_init [] None "european" = Ok sample_european
  /\ standard "european" /\
  forall bn, bins sample_european !! 5%nat = Some bn ->
    bn !! "4-5-6" = Some (plain_outcome "4-5-6" 11) /\
    bn !! "4-5-7-8" = Some (plain_outcome "4-5-7-8" 8) /\
    bn !! "4-5-6-7-8-9" = Some (plain_outcome "4-5-6-7-8-9" 5).
Proof.
  assert (standard "european") as Hstd by (right; reflexivity).
  split; [exact sample_european_init|]. split; [exact Hstd|].
  intros bn Hbn.
  exact (block_bets_cover_their_numbers [] None "european" sample_european
           5 4 bn sample_european_init Hstd ltac:(lia) Hbn).
Defined.

(** X10: under both rules, the bin of a number i of 1..36 holds the dozen
    Outcome "dozen(d)" exactly for d = (i-1)/12 + 1 and the column Outcome
    "column(c)" exactly for c = (i-1) mod 3 + 1, both at 2 to 1; the bins of
    0 and 00 hold no dozen and no column. *)
Theorem dozen_and_column_of_a_number `{RandomSource G} (fresh : G) seed rules
    w (i d : nat) (bn : Bin) :
  Wheel_init fresh seed rules = Ok w -> standard rules ->
  (d < 38)%nat -> bins w !! i = Some bn ->
  bn !! dozen_name d
    = (if (1 <=? i)%nat && (i <=? 36)%nat && (d =? (i - 1) / 12 + 1)%nat
       then Some (plain_outcome (dozen_name d) 2) else None) /\
  bn !! column_name d
    = (if (1 <=? i)%nat && (i <=? 36)%nat && (d =? (i - 1) mod 3 + 1)%nat
       then Some (plain_outcome (column_name d) 2) else None).
Proof.
  intros Hw Hstd Hd Hbn.
  destruct (built_bin_lt fresh seed rules w i bn Hw Hbn) as [Hbin Hi].
  destruct (standard_layout rules Hstd) as (_ & _ & Hdoz).
  unfold dozens_columns_ok in Hdoz.
  pose proof (all_below_lt _ _ d Hdoz Hd) as H1.
  pose proof (checked_bins_at _ _ i bn H1 Hi Hbin) as H2.
  apply andb_prop in H2 as [Hdozen Hcolumn].
  split; apply holds_iff_eq; assumption.
Qed.

Lemma dozen_and_column_of_a_number_witness :
  Wheel_init [] None "american" = Ok sample_wheel /\ standard "american" /\
  forall bn, bins sample_wheel !! 14%nat = Some bn ->
    bn !! "dozen(2)" = Some (plain_outcome "dozen(2)" 2) /\
    bn !! "column(2)" = Some (plain_outcome "column(2)" 2).
Proof.
  assert (standard "american") as Hstd by (left; reflexivity).
  split; [exact sample_wheel_init|]. split; [exact Hstd|].
  intros bn Hbn.
  exact (dozen_and_column_of_a_number [] None "american" sample_wheel 14 2 bn
           sample_wheel_init Hstd ltac:(lia) Hbn).
Defined.

Lemma american_census :
  map (fun k => count_at_odds k american_outcomes) [35; 17; 11; 8; 6; 5; 2; 1]
  = [38; 57; 12; 22; 1; 11; 6; 6]%nat.
Proof. vm_compute. reflexivity. Qed.

Lemma european_census :
  map (fun k => count_at_odds k european_outcomes) [35; 17; 11; 8; 6; 5; 2; 1]
  = [38; 57; 12; 22; 1; 11; 6; 6]%nat.
Proof. vm_compute. reflexivity. Qed.

(** X11: under both rules the wheel registers 38 straight Outcomes (35 to
    1), 57 splits (17 to 1), 12 streets (11 to 1), 22 corners (8 to 1), 11
    lines (5 to 1), 6 dozens and columns (2 to 1), 6 even-money Outcomes (1
    to 1) and one Outcome at 6 to 1. *)
Theorem registry_census `{RandomSource G} (fresh : G) seed rules w :
  Wheel_init fresh seed rules = Ok w -> standard rules ->
  count_at_odds 35 (all_outcomes w) = 38%nat /\
  count_at_odds 17 (all_outcomes w) = 57%nat /\
  count_at_odds 11 (all_outcomes w) = 12%nat /\
  count_at_odds 8 (all_outcomes w) = 22%nat /\
  count_at_odds 6 (all_outcomes w) = 1%nat /\
  count_at_odds 5 (all_outcomes w) = 11%nat /\
  count_at_odds 2 (all_outcomes w) = 6%nat /\
  count_at_odds 1 (all_outcomes w) = 6%nat.
Proof.
  rewrite Wheel_init_built. intros [= <-] Hstd. cbn [all_outcomes].
  assert (map (fun k => count_at_odds k (outcomes_for rules))
            [35; 17; 11; 8; 6; 5; 2; 1]
          = [38; 57; 12; 22; 1; 11; 6; 6]%nat) as Hc.
  { unfold outcomes_for. destruct Hstd as [-> | ->].
    - rewrite bool_decide_eq_true_2 by reflexivity. apply american_census.
    - rewrite bool_decide_eq_false_2 by discriminate.
      rewrite bool_decide_eq_true_2 by reflexivity. apply european_census. }
  injection Hc as -> -> -> -> -> -> -> ->. repeat split.
Qed.

Lemma registry_census_witness :
  Wheel_init [] None "american" = Ok sample_wheel /\ standard "american" /\
  count_at_odds 8 (all_outcomes sample_wheel) = 22%nat.
Proof.
  assert (standard "american") as Hstd by (left; reflexivity).
  split; [exact sample_wheel_init|]. split; [exact Hstd|].
  exact (proj1 (proj2 (proj2 (proj2
           (registry_census [] None "american" sample_wheel
              sample_wheel_init Hstd))))).
Defined.

Lemma european_differs : european_differs_ok = true.
Proof. vm_compute. reflexivity. Qed.

(** X12: the European wheel is the American wheel bin by bin with three
    changes: the five-bet "00-0-1-2-3", which the American wheel holds at 6
    to 1 in the bins 0, 1, 2, 3 and 37 and nowhere else, is gone; the bins
    0..3 hold the four-bet "0-1-2-3" at 6 to 1; and the straight bet "0" of
    bin 0 is a PrisonOutcome.  Bin 37 keeps its straight bet "00". *)
Theorem european_wheel_from_american `{RandomSource G} (f1 f2 : G) s1 s2
    wa we (i : nat) (ba : Bin) :
  Wheel_init f1 s1 "american" = Ok wa ->
  Wheel_init f2 s2 "european" = Ok we ->
  bins wa !! i = Some ba ->
  bins we !! i = Some (european_of i ba) /\
  ba !! "00-0-1-2-3"
    = (if (i <=? 3)%nat || (i =? 37)%nat
       then Some (plain_outcome "00-0-1-2-3" 6) else None).
Proof.
  intros Ha He Hba.
  destruct (built_bin_lt f1 s1 "american" wa i ba Ha Hba) as [Hbin Hi].
  rewrite bins_for_american in Hbin.
  rewrite Wheel_init_built, bins_for_european in He. injection He as <-.
  cbn [bins].
  pose proof (all_below_lt _ _ i european_differs Hi) as Hc.
  apply andb_prop in Hc as [Heq Hfive]. apply bool_decide_eq_true in Heq.
  rewrite Hbin in Heq, Hfive. split; [exact Heq|].
  apply holds_iff_eq. exact Hfive.
Qed.

Lemma european_wheel_from_american_witness :
  Wheel_init [] None "american" = Ok sample_wheel /\
  Wheel_init [] None "european" = Ok sample_european /\
  forall ba, bins sample_wheel !! 0%nat = Some ba ->
    bins sample_european !! 0%nat = Some (european_of 0 ba).
Proof.
  split; [exact sample_wheel_init|]. split; [exact sample_european_init|].
  intros ba Hba.
  exact (proj1 (european_wheel_from_american [] [] None None sample_wheel
                  sample_european 0 ba sample_wheel_init sample_european_init
                  Hba)).
Defined.

(** ** Table *)

(** X13: [place_bet] raises InvalidBet exactly when the amounts on the table
    plus the amount of the bet exceed the limit; raising or not, the table
    afterwards holds the earlier bets followed by the bet, and [is_valid]
    then answers whether the call returned. *)
Theorem Table_place_bet_raises_iff {G} (b : Bet) (t : Table G) :
  (fst (Table_place_bet b t) = Raise InvalidBet
   <-> total_wagered (bets t) + amount b > limit t) /\
  (fst (Table_place_bet b t) = Ok tt
   <-> total_wagered (bets t) + amount b <= limit t) /\
  snd (Table_place_bet b t) = mkTable (limit t) (bets t ++ [b]) (wheel t) /\
  Table_is_valid (snd (Table_place_bet b t))
    = is_ok (fst (Table_place_bet b t)).
Proof.
  rewrite Table_place_bet_unfold. unfold Table_is_valid. simpl.
  rewrite total_wagered_app.
  case_bool_decide; simpl; (repeat split; try reflexivity; try lia);
    try discriminate; intros; lia.
Qed.

(** X14: once a bet has been rejected, the table stays over its limit: every
    later bet of a non-negative amount is rejected too, until [clear_bets],
    after which the table is valid again when its limit is not negative. *)
Theorem Table_rejection_sticks {G} (b b' : Bet) (t : Table G) :
  fst (Table_place_bet b t) = Raise InvalidBet ->
  0 <= amount b' ->
  fst (Table_place_bet b' (snd (Table_place_bet b t))) = Raise InvalidBet /\
  (0 <= limit t ->
   Table_is_valid (Table_clear_bets (snd (Table_place_bet b t))) = true).
Proof.
  intros Hraise Hpos.
  rewrite Table_place_bet_unfold in Hraise. simpl in Hraise.
  case_bool_decide as Hover; [|discriminate].
  rewrite !Table_place_bet_unfold. simpl. rewrite total_wagered_app.
  split.
  - rewrite bool_decide_eq_true_2 by lia. reflexivity.
  - intros Hlim. unfold Table_is_valid. simpl.
    rewrite bool_decide_eq_false_2 by lia. reflexivity.
Qed.

Lemma Table_rejection_sticks_witness :
  fst (Table_place_bet (mkBet 11 (Some black_outcome)) table_at_90)
    = Raise InvalidBet /\
  fst (Table_place_bet (mkBet 0 (Some black_outcome))
         (snd (Table_place_bet (mkBet 11 (Some black_outcome)) table_at_90)))
    = Raise InvalidBet.
Proof.
  assert (fst (Table_place_bet (mkBet 11 (Some black_outcome)) table_at_90)
          = Raise InvalidBet) as Hr by reflexivity.
  split; [exact Hr|].
  exact (proj1 (Table_rejection_sticks (mkBet 11 (Some black_outcome))
                  (mkBet 0 (Some black_outcome)) table_at_90 Hr
                  ltac:(simpl; lia))).
Defined.

(** ** Rounds *)

(** X15: a round is played out also for a player that is not playing: on a
    table without bets and a wheel of 38 bins, [cycle] places no bet, spins
    the wheel once, reports the winning bin to the player and returns the
    sum 0 and the count 0; the limit and the bins are as before.  For a
    strategy that counts rounds as the base class does, the round is taken
    off the player's rounds all the same. *)
Theorem idle_round `{RandomSource G} `{St : Strategy G P} (p : P)
    (t : Table G) :
  playing p = false -> bets t = [] -> length (bins (wheel t)) = 38%nat ->
  exists bn g,
    Wheel_next (wheel t)
      = (Ok bn, mkWheel (bins (wheel t)) g (all_outcomes (wheel t))) /\
    Game_cycle (p, t)
      = (Ok (VInt 0, 0%nat),
         (winners bn p,
          mkTable (limit t) []
            (mkWheel (bins (wheel t)) g (all_outcomes (wheel t))))) /\
    (Budgeted St ->
     rounds (base (winners bn p)) = rounds (Player_winners (base p))).
Proof.
  intros Hidle Hempty Hlen.
  destruct (Wheel_next_ok (wheel t) Hlen) as (bn & g & Hnext).
  exists bn, g. split; [exact Hnext|]. split.
  - rewrite Game_cycle_unfold, Hidle, Hnext, Hempty. reflexivity.
  - intros HB. apply winners_rounds.
Qed.

Lemma idle_round_witness :
  exists bn g,
    Game_cycle (broke_martingale, three_reds_table)
      = (Ok (VInt 0, 0%nat),
         (winners (G:=list Z) bn broke_martingale,
          mkTable (limit three_reds_table) []
            (mkWheel (bins (wheel three_reds_table)) g
               (all_outcomes (wheel three_reds_table))))) /\
    rounds (base (G:=list Z) (winners (G:=list Z) bn broke_martingale))
      = Some 199.
Proof.
  assert (length (bins (wheel three_reds_table)) = 38%nat) as Hlen.
  { change (bins (wheel three_reds_table)) with (bins_for "american").
    apply bins_for_length. }
  assert (playing (G:=list Z) broke_martingale = false) as Hidle
    by reflexivity.
  destruct (idle_round broke_martingale three_reds_table Hidle eq_refl Hlen)
    as (bn & g & _ & Hcycle & Hrounds).
  exists bn, g. split; [exact Hcycle|].
  exact (eq_trans (Hrounds Martingale_budgeted) eq_refl).
Defined.



Lemma Player_winners_counts (s : option Z) (r : Z) :
  r ≠ 0 -> Player_winners (mkPlayer s (Some r)) = mkPlayer s (Some (r - 1)).
Proof.
  intros Hr. unfold Player_winners. simpl.
  rewrite bool_decide_eq_true_2 by assumption. reflexivity.
Qed.

Lemma Martingale_resolve_bet `{RandomSource G} (bn : Bin) (b : Bet)
    (m : Martingale) (s : Z) (v : value) :
  stake (m_player m) = Some s ->
  (if wins b bn then Player_win b else Player_lose b) = Ok v ->
  resolve (G:=G) bn [b] m
  = (Ok [v],
     if wins b bn
     then mkMartingale (mkPlayer (Some (s + amount b)) (rounds (m_player m)))
            0 (black m)
     else mkMartingale (m_player m) (multiplier m + 1) (black m)).
Proof.
  intros Hs Hv. simpl. unfold mbind, eff_bind, mret, eff_ret.
  destruct (wins b bn).
  - rewrite (Martingale_win_unfold m b s Hs), Hv. reflexivity.
  - rewrite Martingale_lose_unfold, Hv. reflexivity.
Qed.

(** A round of a Martingale player that is playing, with the value that the
    resolution of its bet returns. *)
Lemma Martingale_round_playing `{RandomSource G} (m : Martingale)
    (t : Table G) (s r : Z) :
  bets t = [] -> length (bins (wheel t)) = 38%nat -> plain (black m) ->
  stake (m_player m) = Some s -> rounds (m_player m) = Some r ->
  r > 0 -> s > 0 ->
  exists bn g v,
    Wheel_next (wheel t)
      = (Ok bn, mkWheel (bins (wheel t)) g (all_outcomes (wheel t))) /\
    (if wins (mkBet (Martingale_amount (multiplier m) (limit t) s) (black m)) bn
     then Player_win
            (mkBet (Martingale_amount (multiplier m) (limit t) s) (black m))
     else Player_lose
            (mkBet (Martingale_amount (multiplier m) (limit t) s) (black m)))
      = Ok v /\
    Game_cycle (m, t)
      = (Ok (py_sum [v], 1%nat),
         ((if wins (mkBet (Martingale_amount (multiplier m) (limit t) s)
                      (black m)) bn
           then mkMartingale
                  (mkPlayer
                     (Some (s - Martingale_amount (multiplier m) (limit t) s
                            + Martingale_amount (multiplier m) (limit t) s))
                     (Some (r - 1))) 0 (black m)
           else mkMartingale
                  (mkPlayer
                     (Some (s - Martingale_amount (multiplier m) (limit t) s))
                     (Some (r - 1))) (multiplier m + 1) (black m)),
          mkTable (limit t) []
            (mkWheel (bins (wheel t)) g (all_outcomes (wheel t))))).
Proof.
  intros Hempty Hlen Hplain Hs Hr Hrpos Hspos.
  set (a := Martingale_amount (multiplier m) (limit t) s).
  destruct (Wheel_next_ok (wheel t) Hlen) as (bn & g & Hnext).
  destruct (base_resolution (mkBet a (black m)) bn Hplain) as [v Hv].
  exists bn, g, v. split; [exact Hnext|]. split; [exact Hv|].
  rewrite Game_cycle_unfold. simpl playing. simpl place_bets.
  assert (Player_playing (m_player m) = true) as ->.
  { unfold Player_playing. rewrite Hr, Hs.
    rewrite !bool_decide_eq_true_2 by assumption. reflexivity. }
  rewrite (Martingale_place_bets_unfold m t s Hs). fold a. rewrite Hempty.
  pose proof (Martingale_amount_le_limit (multiplier m) (limit t) s).
  rewrite bool_decide_eq_false_2 by (simpl; fold a; lia).
  simpl wheel. rewrite Hnext. simpl bets. rewrite Hempty. simpl app.
  simpl winners. unfold Martingale_winners. simpl m_player.
  rewrite Hr, Player_winners_counts by lia. simpl multiplier. simpl black.
  erewrite Martingale_resolve_bet by (simpl; eauto).
  simpl. destruct (wins (mkBet a (black m)) bn); reflexivity.
Qed.



(** A round of a player that is not playing. *)
Lemma cycle_not_playing `{RandomSource G} `{St : Strategy G P} (p : P)
    (t : Table G) :
  playing p = false -> bets t = [] -> length (bins (wheel t)) = 38%nat ->
  exists bn g,
    Game_cycle (p, t)
      = (Ok (VInt 0, 0%nat),
         (winners bn p,
          mkTable (limit t) []
            (mkWheel (bins (wheel t)) g (all_outcomes (wheel t))))).
Proof.
  intros Hidle Hempty Hlen.
  destruct (Wheel_next_ok (wheel t) Hlen) as (bn & g & Hnext).
  exists bn, g. rewrite Game_cycle_unfold, Hidle, Hnext, Hempty. reflexivity.
Qed.

(** ** SevenReds *)

Lemma SevenReds_cycle_waiting `{RandomSource G} (p : SevenReds) (t : Table G) :
  (red_count p < 7)%nat -> bets t = [] -> length (bins (wheel t)) = 38%nat ->
  exists bn g,
    Wheel_next (wheel t)
      = (Ok bn, mkWheel (bins (wheel t)) g (all_outcomes (wheel t))) /\
    Game_cycle (p, t)
      = (Ok (VInt 0, 0%nat),
         (SevenReds_winners bn p,
          mkTable (limit t) []
            (mkWheel (bins (wheel t)) g (all_outcomes (wheel t))))).
Proof.
  intros Hcount Hempty Hlen.
  destruct (Wheel_next_ok (wheel t) Hlen) as (bn & g & Hnext).
  exists bn, g. split; [exact Hnext|].
  rewrite Game_cycle_unfold. simpl place_bets. simpl winners.
  assert ((if playing (G:=G) p then SevenReds_place_bets (p, t)
           else (Ok tt, (p, t))) = (Ok tt, (p, t))) as ->.
  { destruct (playing (G:=G) p); [|reflexivity].
    unfold SevenReds_place_bets, mbind, eff_bind, get. simpl.
    rewrite bool_decide_eq_false_2 by lia. reflexivity. }
  rewrite Hnext, Hempty. reflexivity.
Qed.

(** X18: SevenReds waits: while it has counted fewer than seven reds in a
    row, a round on a table without bets places no bet and returns the sum 0
    and the count 0, whether the player is playing or not.  The round adds 1
    to the count when the winning bin holds "red" and sets it to 0 when it
    does not; the stake and the multiplier are as before. *)
Theorem SevenReds_waits `{RandomSource G} (p : SevenReds) (t : Table G) :
  (red_count p < 7)%nat -> bets t = [] -> length (bins (wheel t)) = 38%nat ->
  exists bn g p',
    Wheel_next (wheel t)
      = (Ok bn, mkWheel (bins (wheel t)) g (all_outcomes (wheel t))) /\
    Game_cycle (p, t)
      = (Ok (VInt 0, 0%nat),
         (p', mkTable (limit t) []
                (mkWheel (bins (wheel t)) g (all_outcomes (wheel t))))) /\
    red_count p' = (if red_wins p bn then red_count p + 1 else 0)%nat /\
    stake (m_player (sr_martingale p')) = stake (m_player (sr_martingale p)) /\
    multiplier (sr_martingale p') = multiplier (sr_martingale p).
Proof.
  intros Hcount Hempty Hlen.
  destruct (SevenReds_cycle_waiting p t Hcount Hempty Hlen)
    as (bn & g & Hnext & Hcycle).
  exists bn, g, (SevenReds_winners bn p).
  split; [exact Hnext|]. split; [exact Hcycle|].
  unfold SevenReds_winners, red_wins.
  destruct (wins (mkBet 0 (red p)) bn); simpl;
    rewrite Player_winners_stake; repeat split.
Qed.

Lemma SevenReds_waits_witness :
  exists bn g p',
    Game_cycle (SevenReds_init three_reds_table, three_reds_table)
      = (Ok (VInt 0, 0%nat),
         (p', mkTable (limit three_reds_table) []
                (mkWheel (bins (wheel three_reds_table)) g
                   (all_outcomes (wheel three_reds_table))))) /\
    red_count p'
      = (if red_wins (SevenReds_init three_reds_table) bn
         then red_count (SevenReds_init three_reds_table) + 1 else 0)%nat.
Proof.
  assert (length (bins (wheel three_reds_table)) = 38%nat) as Hlen.
  { change (bins (wheel three_reds_table)) with (bins_for "american").
    apply bins_for_length. }
  destruct (SevenReds_waits (SevenReds_init three_reds_table)
              three_reds_table ltac:(simpl; lia) eq_refl Hlen)
    as (bn & g & p' & _ & Hcycle & Hcount & _).
  exists bn, g, p'. split; [exact Hcycle | exact Hcount].
Defined.

(** ** Sessions with bounded stakes *)

Lemma py_max_member xs m : py_max xs = Ok m -> m ∈ xs.
Proof.
  destruct xs as [|x xs]; [discriminate|]. simpl.
  assert (forall cur, for_each xs
            (fun item cur0 => g ← py_gt item cur0;
                              Ok (if g : bool then item else cur0)) cur = Ok m ->
          m = cur \/ m ∈ xs) as Hgen.
  { induction xs as [|y ys IH]; intros cur; simpl.
    - intros [= <-]. left. reflexivity.
    - destruct y as [y|], cur as [c|]; simpl; try discriminate.
      intros Hm. apply IH in Hm as [-> | Hin].
      + case_bool_decide; [right; left | left; reflexivity].
      + right. right. exact Hin. }
  intros Hm. apply Hgen in Hm as [-> | Hin]; [left | right; exact Hin].
Qed.

Section BoundedSessions.
Context `{RandomSource G} `{St : Strategy G P} `{!Budgeted St}.
Variable T : Table G -> Prop.
Variable I : P * Table G -> Prop.
Variable hi : Z.
Hypothesis I_table : forall p t, I (p, t) -> T t.
Hypothesis I_start : forall t d s0,
  T t -> 0 <= s0 <= hi -> I (set_stake s0 (set_rounds d (construct t)), t).
Hypothesis I_safe : safe_rounds I.
Hypothesis I_stake : forall s, I s -> within hi (stake (base (fst s))).

Lemma session_loop_within fuel stakes d s res s' :
  I s -> Forall (within hi) stakes ->
  session_loop fuel stakes d s = Some (res, s') ->
  I s' /\ exists stakes' d',
    res = Ok (stakes', d') /\ Forall (within hi) stakes'.
Proof.
  revert stakes d s. induction fuel as [|fuel IH]; intros stakes d s HI Hall;
    simpl; destruct (playing (fst s)); try discriminate;
    try (intros [= <- <-]; split; [exact HI | eauto]).
  destruct (I_safe s HI) as (v & s1 & -> & HI1).
  apply IH; [exact HI1|].
  apply Forall_app. split; [exact Hall|].
  apply Forall_singleton, I_stake, HI1.
Qed.

(** Where the loop stops: the player is not playing, and its rounds are
    those it started with less the rounds played. *)
Lemma session_loop_exit fuel stakes d p t r stakes' d' p' t' :
  rounds (base p) = Some r ->
  session_loop fuel stakes d (p, t) = Some (Ok (stakes', d'), (p', t')) ->
  playing p' = false /\ rounds (base p') = Some (r - (d' - d)).
Proof.
  revert stakes d p t r. induction fuel as [|fuel IH];
    intros stakes d p t r Hr; simpl; destruct (playing p) eqn:Hplay;
    try discriminate.
  - intros [= <- <- <- <-]. split; [exact Hplay|]. rewrite Hr. f_equal. lia.
  - destruct (Game_cycle (p, t)) as [[v|e] [p1 t1]] eqn:Hc; [|discriminate].
    destruct (cycle_rounds _ _ _ _ _ _ Hplay Hr Hc) as [Hr1 _].
    intros Hloop. destruct (IH _ _ _ _ _ Hr1 Hloop) as [Hidle Hr'].
    split; [exact Hidle|]. rewrite Hr'. f_equal. lia.
  - intros [= <- <- <- <-]. split; [exact Hplay|]. rewrite Hr. f_equal. lia.
Qed.

Lemma bounded_session fuel (sim : Simulator G P) :
  T (table (game sim)) -> 0 <= init_stake sim <= hi ->
  (Z.to_nat (init_duration sim) <= fuel)%nat ->
  exists stakes sim' d m,
    Simulator_session fuel sim = Some (Ok stakes, sim') /\
    Forall (within hi) stakes /\
    durations sim' = durations sim ++ [d] /\
    0 <= d <= Z.max 0 (init_duration sim) /\
    maxima sim' = maxima sim ++ [Some m] /\
    init_stake sim <= m <= hi /\
    T (table (game sim')) /\
    init_duration sim' = init_duration sim /\
    init_stake sim' = init_stake sim /\
    samples sim' = samples sim /\
    playing (player sim') = false /\
    rounds (base (player sim')) = Some (init_duration sim - d) /\
    within hi (stake (base (player sim'))).
Proof.
  intros HT Hstake Hfuel. unfold Simulator_session.
  set (t := table (game sim)) in *.
  set (p0 := set_stake _ (set_rounds _ _)).
  assert (I (p0, t)) as Hp0 by (apply I_start; assumption).
  assert (rounds (base p0) = Some (init_duration sim)) as Hr
    by (unfold p0, set_stake, set_rounds; rewrite !base_set_base; reflexivity).
  assert (stake (base p0) = Some (init_stake sim)) as Hs
    by (unfold p0, set_stake; rewrite base_set_base; reflexivity).
  destruct (session_loop_ends fuel [stake (base p0)] 0 (p0, t)
              (init_duration sim) Hr Hfuel)
    as (res & [p' t'] & Hloop & Hres).
  destruct (session_loop_within fuel [stake (base p0)] 0 (p0, t) res (p', t')
              Hp0) as (HI' & stakes & d & -> & Hall); [|exact Hloop|].
  { apply Forall_singleton. rewrite Hs. exists (init_stake sim). auto. }
  destruct (Hres _ _ eq_refl) as [Hd [rest ->]].
  destruct (session_loop_exit _ _ _ _ _ _ _ _ _ _ Hr Hloop) as [Hidle Hr'].
  rewrite Hloop.
  destruct (py_max_numbers ([stake (base p0)] ++ rest)) as [m Hmax];
    [discriminate | |].
  { eapply Forall_impl; [exact Hall|]. intros o (x & -> & _). eauto. }
  rewrite Hmax.
  pose proof (py_max_member _ _ Hmax) as Hin.
  rewrite Forall_forall in Hall. destruct (Hall m Hin) as (z & -> & Hz).
  rewrite Hs in Hmax. apply py_max_first in Hmax as (z' & [= <-] & Hz').
  eexists _, _, d, z. split; [reflexivity|]. simpl.
  split; [apply Forall_forall; exact Hall|].
  split; [reflexivity|]. split; [lia|]. split; [reflexivity|].
  split; [lia|]. split; [eapply I_table; exact HI'|].
  split; [reflexivity|]. split; [reflexivity|]. split; [reflexivity|].
  split; [exact Hidle|]. split; [rewrite Hr'; f_equal; lia|].
  apply (I_stake _ HI').
Qed.

Lemma bounded_gather_loop fuel n (sim : Simulator G P) :
  T (table (game sim)) -> 0 <= init_stake sim <= hi ->
  (Z.to_nat (init_duration sim) <= fuel)%nat ->
  exists sim' ds ms,
    gather_loop fuel n sim = Some (Ok tt, sim') /\
    durations sim' = durations sim ++ ds /\ length ds = n /\
    Forall (fun d => 0 <= d <= Z.max 0 (init_duration sim)) ds /\
    maxima sim' = maxima sim ++ ms /\ length ms = n /\
    Forall (fun m => exists z, m = Some z /\ init_stake sim <= z <= hi) ms.
Proof.
  revert sim. induction n as [|n IH]; intros sim HT Hstake Hfuel; simpl.
  - exists sim, [], []. rewrite !app_nil_r. repeat split; constructor.
  - destruct (bounded_session fuel sim HT Hstake Hfuel)
      as (stakes & sim1 & d & m & -> & _ & Hd1 & Hd & Hm1 & Hm & HT1
          & Hdur & Hstk & _).
    destruct (IH sim1 HT1 ltac:(rewrite Hstk; exact Hstake)
                ltac:(rewrite Hdur; exact Hfuel))
      as (sim' & ds & ms & -> & Hds & Hlen & Hall & Hms & Hlenm & Hallm).
    exists sim', (d :: ds), (Some m :: ms).
    split; [reflexivity|]. rewrite Hds, Hd1, Hms, Hm1, <- !app_assoc. simpl.
    rewrite Hdur, Hstk in *.
    repeat split; try reflexivity; try lia; constructor; eauto.
Qed.
End BoundedSessions.

Lemma Martingale_amount_bounds k lim s :
  0 <= lim -> 0 < s -> 0 <= Martingale_amount k lim s <= s.
Proof.
  intros Hlim Hs. rewrite Martingale_amount_min.
  assert (0 < 2 ^ Z.of_nat k) by (apply Z.pow_pos_nonneg; lia). lia.
Qed.

Lemma Martingale_bounded_safe `{RandomSource G} hi :
  safe_rounds (P:=Martingale) (Martingale_bounded hi).
Proof.
  intros [m t] (((Hempty & Hlen & Hblack) & Hlim) & Hplain & (s & Hs & Hle)).
  simpl in *.
  destruct (Player_playing (m_player m)) eqn:Hplay.
  - apply Player_playing_true in Hplay as (r & s0 & Hr & Hs0 & Hrpos & Hspos).
    assert (s0 = s) as -> by congruence.
    destruct (Martingale_round_playing m t s r Hempty Hlen Hplain Hs Hr
                Hrpos Hspos) as (bn & g & v & _ & _ & Hcycle).
    eexists _, _. split; [exact Hcycle|].
    pose proof (Martingale_amount_bounds (multiplier m) (limit t) s Hlim
                  ltac:(lia)) as Ha.
    unfold Martingale_bounded, table_playable, table_ready, within. simpl.
    destruct (wins _ bn); simpl;
      (split; [repeat split; assumption|]); (split; [exact Hplain|]);
      eexists; (split; [reflexivity | lia]).
  - destruct (cycle_not_playing (St:=Martingale_strategy) m t Hplay Hempty Hlen)
      as (bn & g & Hcycle).
    eexists _, _. split; [exact Hcycle|].
    unfold Martingale_bounded, table_playable, table_ready, within. simpl.
    split; [repeat split; assumption|]. split; [exact Hplain|].
    rewrite Player_winners_stake. eauto.
Qed.

Lemma SevenReds_resolve_lift `{RandomSource G} (bn : Bin) (bs : list Bet)
    (p : SevenReds) :
  resolve (G:=G) bn bs p
  = (fst (resolve (G:=G) bn bs (sr_martingale p)),
     mkSevenReds (snd (resolve (G:=G) bn bs (sr_martingale p)))
       (red_count p) (red p)).
Proof.
  revert p. induction bs as [|b bs IH]; intros p.
  - destruct p; reflexivity.
  - cbn [resolve]. unfold mbind, eff_bind.
    assert ((if wins b bn then win (G:=G) b else lose (G:=G) b) p
            = (fst ((if wins b bn then win (G:=G) b else lose (G:=G) b)
                      (sr_martingale p)),
               mkSevenReds
                 (snd ((if wins b bn then win (G:=G) b else lose (G:=G) b)
                         (sr_martingale p)))
                 (red_count p) (red p))) as ->.
    { assert (forall x : result value * Martingale,
                (let '(r, m') := x in
                 (r, mkSevenReds m' (red_count p) (red p)))
                = (fst x, mkSevenReds (snd x) (red_count p) (red p))) as Hpair
        by (intros [? ?]; reflexivity).
      destruct (wins b bn);
        [exact (Hpair (Martingale_win b (sr_martingale p)))
        | exact (Hpair (Martingale_lose b (sr_martingale p)))]. }
    destruct ((if wins b bn then win (G:=G) b else lose (G:=G) b)
                (sr_martingale p)) as [[v|e] m1]; cbn [fst snd];
      [|reflexivity].
    rewrite IH. cbn [sr_martingale red_count red].
    destruct (resolve bn bs m1) as [[vs|e] m2]; reflexivity.
Qed.

(** A round of SevenReds that does not wait is the round of its Martingale
    part, with the count of reds kept beside it. *)
Lemma SevenReds_cycle_lift `{RandomSource G} (p : SevenReds) (t : Table G) :
  (7 <= red_count p)%nat \/ playing (G:=G) p = false ->
  exists rc,
    Game_cycle (p, t)
    = (fst (Game_cycle (sr_martingale p, t)),
       (mkSevenReds (fst (snd (Game_cycle (sr_martingale p, t)))) rc (red p),
        snd (snd (Game_cycle (sr_martingale p, t))))).
Proof.
  intros Hgo. rewrite !Game_cycle_unfold. simpl playing. simpl place_bets.
  simpl winners. destruct p as [m rc rd]. simpl in *.
  assert ((if Player_playing (m_player m)
           then SevenReds_place_bets (mkSevenReds m rc rd, t)
           else (Ok tt, (mkSevenReds m rc rd, t)))
          = (fst (if Player_playing (m_player m)
                  then Martingale_place_bets (m, t) else (Ok tt, (m, t))),
             (mkSevenReds
                (fst (snd (if Player_playing (m_player m)
                           then Martingale_place_bets (m, t)
                           else (Ok tt, (m, t))))) rc rd,
              snd (snd (if Player_playing (m_player m)
                        then Martingale_place_bets (m, t)
                        else (Ok tt, (m, t))))))) as ->.
  { destruct (Player_playing (m_player m)); [|reflexivity].
    destruct Hgo as [Hgo | Hgo]; [|discriminate].
    unfold SevenReds_place_bets, mbind, eff_bind, get, with_martingale. simpl.
    rewrite bool_decide_eq_true_2 by lia.
    assert (forall x : result unit * (Martingale * Table G),
              (let '(r, (m', t')) := x in (r, (mkSevenReds m' rc rd, t')))
              = (fst x, (mkSevenReds (fst (snd x)) rc rd, snd (snd x))))
      as Hpair by (intros [? [? ?]]; reflexivity).
    exact (Hpair (Martingale_place_bets (m, t))). }
  destruct (if Player_playing (m_player m) then Martingale_place_bets (m, t)
            else (Ok tt, (m, t))) as [[[]|e] [m1 t1]]; simpl.
  2: { exists rc. reflexivity. }
  destruct (Wheel_next (wheel t1)) as [[bn|e] w'].
  2: { exists rc. reflexivity. }
  rewrite SevenReds_resolve_lift. unfold SevenReds_winners. simpl.
  destruct (wins (mkBet 0 rd) bn); simpl;
    destruct (resolve bn (bets t1) (Martingale_winners m1)) as [[vs|e] m3];
    eexists; reflexivity.
Qed.

Lemma SevenReds_bounded_safe `{RandomSource G} hi :
  safe_rounds (P:=SevenReds) (SevenReds_bounded hi).
Proof.
  intros [p t] Hb.
  destruct (decide (7 <= red_count p)%nat) as [Hgo | Hwait].
  - destruct (SevenReds_cycle_lift p t (or_introl Hgo)) as [rc ->].
    destruct (Martingale_bounded_safe hi (sr_martingale p, t) Hb)
      as (v & [m' t'] & Hc & Hb').
    rewrite Hc. eexists _, _. split; [reflexivity|]. exact Hb'.
  - destruct Hb as (((Hempty & Hlen & Hblack) & Hlim) & Hplain & (s & Hs & Hle)).
    simpl in *.
    destruct (SevenReds_cycle_waiting p t ltac:(lia) Hempty Hlen)
      as (bn & g & _ & ->).
    eexists _, _. split; [reflexivity|].
    unfold SevenReds_bounded, Martingale_bounded, table_playable, table_ready,
      within, SevenReds_winners. simpl.
    destruct (wins (mkBet 0 (red p)) bn); simpl;
      (split; [repeat split; assumption|]); (split; [exact Hplain|]);
      rewrite Player_winners_stake; eauto.
Qed.

Lemma Martingale_bounded_start {G} hi (t : Table G) d s0 :
  table_playable t -> 0 <= s0 <= hi ->
  Martingale_bounded hi
    (set_stake (G:=G) s0 (set_rounds (G:=G) d (Martingale_init t)), t).
Proof.
  intros [Hready Hlim] Hs0. split; [split; assumption|].
  split; [destruct Hready as (_ & _ & Hblack); exact Hblack|].
  exists s0. split; [reflexivity | exact Hs0].
Qed.

Lemma SevenReds_bounded_start {G} hi (t : Table G) d s0 :
  table_playable t -> 0 <= s0 <= hi ->
  SevenReds_bounded hi
    (set_stake (G:=G) s0 (set_rounds (G:=G) d (SevenReds_init t)), t).
Proof.
  intros [Hready Hlim] Hs0. split; [split; assumption|].
  split; [destruct Hready as (_ & _ & Hblack); exact Hblack|].
  exists s0. split; [reflexivity | exact Hs0].
Qed.

(** X19: Martingale never gains.  In a session on a table without bets and
    with a limit that is not negative, every recorded stake is a number of
    0..init_stake, so the recorded maximum is init_stake itself; and the
    session lasts init_duration rounds unless the player has lost its whole
    stake before. *)
Theorem Martingale_never_gains `{RandomSource G} fuel
    (sim : Simulator G Martingale) :
  table_ready (table (game sim)) -> 0 <= limit (table (game sim)) ->
  0 <= init_stake sim -> 0 <= init_duration sim ->
  (Z.to_nat (init_duration sim) <= fuel)%nat ->
  exists stakes sim' d,
    Simulator_session fuel sim = Some (Ok stakes, sim') /\
    Forall (fun o => exists x, o = Some x /\ 0 <= x <= init_stake sim) stakes /\
    maxima sim' = maxima sim ++ [Some (init_stake sim)] /\
    durations sim' = durations sim ++ [d] /\
    0 <= d <= init_duration sim /\
    (d = init_duration sim \/ stake (m_player (player sim')) = Some 0).
Proof.
  intros Hready Hlim Hstake Hdur Hfuel.
  destruct (bounded_session (St:=Martingale_strategy) table_playable
              (Martingale_bounded (init_stake sim)) (init_stake sim)
              ltac:(intros p t Hb; apply Hb)
              ltac:(intros; apply Martingale_bounded_start; assumption)
              (Martingale_bounded_safe _)
              ltac:(intros s Hb; apply Hb)
              fuel sim ltac:(split; assumption) ltac:(lia) Hfuel)
    as (stakes & sim' & d & m & Hs & Hall & Hd1 & Hd & Hm1 & Hm & _ & _ & _
        & _ & Hidle & Hr & (x & Hx & Hxle)).
  exists stakes, sim', d. split; [exact Hs|]. split; [exact Hall|].
  assert (m = init_stake sim) as -> by lia.
  split; [exact Hm1|]. split; [exact Hd1|]. split; [lia|].
  simpl in Hidle, Hr, Hx. unfold Player_playing in Hidle.
  rewrite Hr, Hx in Hidle.
  destruct (decide (d = init_duration sim)) as [|Hne]; [left; assumption|].
  right. rewrite Hx. f_equal.
  rewrite bool_decide_eq_true_2 in Hidle by lia.
  case_bool_decide; [discriminate | lia].
Qed.

Lemma Martingale_never_gains_witness :
  exists stakes sim' d,
    Simulator_session 250 martingale_sim = Some (Ok stakes, sim') /\
    maxima sim' = maxima martingale_sim ++ [Some (init_stake martingale_sim)] /\
    (d = init_duration martingale_sim
     \/ stake (m_player (player sim')) = Some 0).
Proof.
  assert (table_ready (table (game martingale_sim))) as Hready.
  { split; [reflexivity|]. split.
    - change (bins (wheel (table (game martingale_sim))))
        with (bins_for "american"). apply bins_for_length.
    - unfold Wheel_get_outcome.
      change (all_outcomes (wheel (table (game martingale_sim))))
        with american_outcomes.
      rewrite american_black. reflexivity. }
  destruct (Martingale_never_gains 250 martingale_sim Hready
              ltac:(simpl; lia) ltac:(simpl; lia) ltac:(simpl; lia)
              ltac:(simpl; lia))
    as (stakes & sim' & d & Hs & _ & Hm & _ & _ & Hend).
  exists stakes, sim', d. split; [exact Hs|]. split; [exact Hm | exact Hend].
Defined.

(** ** SimulationBuilder and PlayerBuilder *)

Lemma SimulationBuilder_init_built `{RandomSource G} (lim : Z) seed (fresh : G) :
  SimulationBuilder_init lim seed fresh
  = Ok (mkSimulationBuilder seed
          (mkGame (Table_init lim
                     (mkWheel (bins_for "american") (initial_rng fresh seed)
                        (outcomes_for "american"))))).
Proof.
  unfold SimulationBuilder_init, initial_rng.
  destruct seed as [z|]; [case_bool_decide as Hz|];
    rewrite Wheel_init_built; unfold initial_rng;
    rewrite ?bool_decide_eq_true_2 by assumption; reflexivity.
Qed.

Lemma american_table_playable `{RandomSource G} (lim : Z) (g : G) :
  0 <= lim ->
  table_playable
    (Table_init lim (mkWheel (bins_for "american") g (outcomes_for "american"))).
Proof.
  intros Hlim. split; [|exact Hlim].
  split; [reflexivity|]. split; [apply bins_for_length|].
  unfold Wheel_get_outcome, outcomes_for. cbn [wheel Table_init all_outcomes].
  rewrite bool_decide_eq_true_2 by reflexivity.
  rewrite american_black. reflexivity.
Qed.

(** X20: the program of the script, for any limit that is not negative and
    any seed: [SimulationBuilder], [get_simulator("sevenreds")] and
    [gather()] return; 50 durations are recorded, each of 0..250, and 50
    maxima, each of them 100: no session of SevenReds ever shows a stake
    above the stake it started with. *)
Theorem sevenreds_simulation `{RandomSource G} (fresh fresh' : G) seed
    (lim : Z) :
  0 <= lim ->
  exists sb sim sim',
    SimulationBuilder_init lim seed fresh = Ok sb /\
    SimulationBuilder_get_simulator "sevenreds" fresh' sb
      = Ok (sim_sevenreds sim) /\
    Simulator_gather 250 sim = Some (Ok tt, sim') /\
    length (durations sim') = 50%nat /\
    Forall (fun d => 0 <= d <= 250) (durations sim') /\
    maxima sim' = replicate 50 (Some 100).
Proof.
  intros Hlim. eexists _, _.
  assert (exists sim', Simulator_gather 250
            (new_simulator
               (mkGame (Table_init lim
                          (mkWheel (bins_for "american")
                             (initial_rng fresh seed)
                             (outcomes_for "american"))))
               (SevenReds_init
                  (Table_init lim
                     (mkWheel (bins_for "american") (initial_rng fresh seed)
                        (outcomes_for "american")))))
            = Some (Ok tt, sim') /\
          length (durations sim') = 50%nat /\
          Forall (fun d => 0 <= d <= 250) (durations sim') /\
          maxima sim' = replicate 50 (Some 100)) as (sim' & Hg & Hrest).
  { destruct (bounded_gather_loop (St:=SevenReds_strategy) table_playable
                (SevenReds_bounded 100) 100
                ltac:(intros p t Hb; apply Hb)
                ltac:(intros; apply SevenReds_bounded_start; assumption)
                (SevenReds_bounded_safe _)
                ltac:(intros s Hb; apply Hb)
                250 50
                (new_simulator
                   (mkGame (Table_init lim
                              (mkWheel (bins_for "american")
                                 (initial_rng fresh seed)
                                 (outcomes_for "american"))))
                   (SevenReds_init
                      (Table_init lim
                         (mkWheel (bins_for "american")
                            (initial_rng fresh seed)
                            (outcomes_for "american")))))
                (american_table_playable lim _ Hlim)
                ltac:(cbn [init_stake new_simulator]; lia)
                ltac:(cbn [init_duration new_simulator]; lia))
      as (sim' & ds & ms & Hg & Hds & Hlen & Hall & Hms & Hlenm & Hallm).
    exists sim'. split; [exact Hg|].
    cbn [durations maxima new_simulator init_duration init_stake] in *.
    rewrite Hds, Hms. cbn [app].
    split; [exact Hlen|]. split; [exact Hall|].
    symmetry. apply replicate_as_Forall. split; [exact Hlenm|].
    eapply Forall_impl; [exact Hallm|].
    intros m (z & -> & Hz). f_equal. lia. }
  exists sim'. split; [apply SimulationBuilder_init_built|].
  split; [|split; [exact Hg | exact Hrest]].
  unfold SimulationBuilder_get_simulator, PlayerBuilder_get_player.
  rewrite bool_decide_eq_false_2 by discriminate.
  rewrite bool_decide_eq_true_2 by reflexivity. reflexivity.
Qed.

Lemma sevenreds_simulation_witness :
  exists sb sim sim',
    SimulationBuilder_init (G:=list Z) 1000 None [] = Ok sb /\
    SimulationBuilder_get_simulator "sevenreds" [] sb
      = Ok (sim_sevenreds sim) /\
    Simulator_gather 250 sim = Some (Ok tt, sim') /\
    length (durations sim') = 50%nat /\
    Forall (fun d => 0 <= d <= 250) (durations sim') /\
    maxima sim' = replicate 50 (Some 100).
Proof.
  exact (sevenreds_simulation (G:=list Z) [] [] None 1000 ltac:(lia)).
Defined.

(** X21: [get_simulator] raises ValueError exactly when the mode is none of
    "martingale", "sevenreds", "passenger57" and "random", spelled so; it
    raises nothing else, and the simulator it returns has the default setup:
    250 rounds, stake 100, 50 samples, nothing recorded, and the game of the
    builder. *)
Theorem get_simulator_modes `{RandomSource G} (mode : string) (fresh : G)
    (sb : SimulationBuilder G) :
  (SimulationBuilder_get_simulator mode fresh sb = Raise ValueError
   <-> mode ∉ ["martingale"; "sevenreds"; "passenger57"; "random"]) /\
  (forall e, SimulationBuilder_get_simulator mode fresh sb = Raise e ->
             e = ValueError) /\
  (forall s, SimulationBuilder_get_simulator mode fresh sb = Ok s ->
     match s with
     | sim_martingale x =>
         mode = "martingale" /\
         x = mkSimulator 250 100 50 [] []
               (Martingale_init (table (sb_game sb))) (sb_game sb)
     | sim_sevenreds x =>
         mode = "sevenreds" /\
         x = mkSimulator 250 100 50 [] []
               (SevenReds_init (table (sb_game sb))) (sb_game sb)
     | sim_passenger57 x =>
         mode = "passenger57" /\
         x = mkSimulator 250 100 50 [] []
               (Passenger57_init (table (sb_game sb))) (sb_game sb)
     | sim_random x =>
         mode = "random" /\
         x = mkSimulator 250 100 50 [] []
               (PlayerRandom_init fresh (sb_seed sb)) (sb_game sb)
     end).
Proof.
  unfold SimulationBuilder_get_simulator, PlayerBuilder_get_player.
  rewrite !elem_of_cons, elem_of_nil.
  repeat case_bool_decide; cbn [mbind result_bind];
    (split; [split; [try discriminate; intros _; intuition congruence
                    | try (intros Hn; exfalso; apply Hn; auto; fail);
                      reflexivity]|]);
    (split; [intros e; try discriminate; congruence|]);
    intros s; try discriminate; intros [= <-]; split; auto.
Qed.

(** X22: a builder made with a seed that is not 0 seeds the generator of its
    wheel and the generator of the random player it builds with the same
    seed, so both start in the same state; made with the seed 0 or with no
    seed, it seeds neither, and each keeps the state it was created in. *)
Theorem builder_seeds_wheel_and_player `{RandomSource G} (lim : Z)
    (seed : option Z) (fresh fresh' : G) :
  exists sb x,
    SimulationBuilder_init lim seed fresh = Ok sb /\
    SimulationBuilder_get_simulator "random" fresh' sb = Ok (sim_random x) /\
    (forall z, seed = Some z -> z ≠ 0 ->
       rng (wheel (table (sb_game sb))) = rng_seed z /\
       pr_rng (player x) = rng_seed z) /\
    (seed = None \/ seed = Some 0 ->
       rng (wheel (table (sb_game sb))) = fresh /\
       pr_rng (player x) = fresh').
Proof.
  eexists _, _. split; [apply SimulationBuilder_init_built|].
  split.
  { unfold SimulationBuilder_get_simulator, PlayerBuilder_get_player.
    rewrite !bool_decide_eq_false_2 by discriminate.
    rewrite bool_decide_eq_true_2 by reflexivity. reflexivity. }
  cbn [sb_game sb_seed table wheel Table_init rng player new_simulator
         pr_rng PlayerRandom_init].
  unfold initial_rng. split.
  - intros z -> Hz. rewrite !bool_decide_eq_true_2 by assumption.
    split; reflexivity.
  - intros [-> | ->]; split; reflexivity.
Qed.

Lemma builder_seeds_wheel_and_player_witness :
  exists sb x,
    SimulationBuilder_init (G:=list Z) 1000 (Some 7) [] = Ok sb /\
    SimulationBuilder_get_simulator "random" [] sb = Ok (sim_random x) /\
    rng (wheel (table (sb_game sb))) = pr_rng (player x).
Proof.
  destruct (builder_seeds_wheel_and_player (G:=list Z) 1000 (Some 7) [] [])
    as (sb & x & Hsb & Hx & Hseeded & _).
  exists sb, x. split; [exact Hsb|]. split; [exact Hx|].
  destruct (Hseeded 7 eq_refl ltac:(lia)) as [-> ->]. reflexivity.
Defined.
